(** * Brand PPI converter: name normalisation, aggregation and metrics

    A shallow embedding of [excel_to_json_converter.py].

    Conventions of the embedding.
    - A Python [str] is a [string]; a character is a code point below 256
      and [str.lower], [str.isspace] and the regular-expression class [\s]
      are the ones Python applies on that range.
    - A Python [float] is an exact rational [Qc]; the missing value [NaN]
      of pandas is a separate constructor, never a number.
    - A [dict] is a [gmap], a [set] a [gset].
    - The tabular reader ([pd.read_csv], [pd.read_excel]) is a file system
      that maps a path to a frame, or to a file the reader rejects. *)

From Stdlib Require Import QArith Qcanon Ascii String Permutation.
From stdpp Require Import base strings gmap list numbers.
From Stdlib Require Sorted.

Local Open Scope Qc_scope.

(** ** Python values *)

(** What a cell or an argument can hold: text, a number, [NaN], [None]. *)
Inductive pyval :=
  | PyStr (s : string)
  | PyNum (q : Qc)
  | PyNaN
  | PyNone.


(** [pd.isna(v)] on a scalar *)
Definition isna (v : pyval) : bool :=
  match v with PyNaN | PyNone => true | _ => false end.

(** ** Characters and strings *)

Definition chars (s : string) : list ascii := list_ascii_of_string s.
Definition text (l : list ascii) : string := string_of_list_ascii l.

Definition code (c : ascii) : nat := nat_of_ascii c.

(** [c.isspace()], which is also the class [\s] of a [str] pattern:
    TAB..CR, FS..US, SPACE, NEL and NBSP. *)
Definition isspace (c : ascii) : bool :=
  let n := code c in
  ((9 <=? n) && (n <=? 13)) || ((28 <=? n) && (n <=? 32))
  || (n =? 133) || (n =? 160).

(** [c.isupper()]: A..Z and the capital letters of the Latin-1 block
    (all of 192..222 but the multiplication sign 215). *)
Definition isupper (c : ascii) : bool :=
  let n := code c in
  ((65 <=? n) && (n <=? 90))
  || ((192 <=? n) && (n <=? 222) && negb (n =? 215)).

(** [c.lower()]: every capital letter has its small letter 32 places up. *)
Definition lower_char (c : ascii) : ascii :=
  if isupper c then ascii_of_nat (code c + 32) else c.

(** [s.lower()] *)
Definition lower (s : list ascii) : list ascii := map lower_char s.

(** [s.lstrip()], [s.rstrip()] and [s.strip()] *)
Fixpoint lstrip (s : list ascii) : list ascii :=
  match s with
  | c :: s' => if isspace c then lstrip s' else s
  | [] => []
  end.
Definition rstrip (s : list ascii) : list ascii := rev (lstrip (rev s)).
Definition strip (s : list ascii) : list ascii := rstrip (lstrip s).

(** The class [[\s\-\.,]] of the pattern in [normalize_name]. *)
Definition is_sep (c : ascii) : bool :=
  isspace c || Ascii.eqb c "-" || Ascii.eqb c "." || Ascii.eqb c ",".

(** [re.sub(r"[\s\-\.,]+", "", s)]: every maximal run of class characters
    is replaced by nothing, so exactly the other characters stay. *)
Definition remove_seps (s : list ascii) : list ascii :=
  filter (λ c, is_sep c = false) s.

(** [name.endswith(suf)] *)
Definition endswith (name suf : list ascii) : bool :=
  bool_decide (drop (length name - length suf) name = suf).

(** [name[:-k]] for [k > 0] *)
Definition chop (k : nat) (name : list ascii) : list ascii :=
  take (length name - k) name.

(** ** Name Normalizer *)

Definition suffixes : list string :=
  ["llc"; "inc"; "incorporated"; "corp"; "corporation";
   "company"; "co"; "dba"; "limited"; "ltd"; "pllc";
   "plc"; "group"; "holdings"; "farms"; "farm"].

(** One turn of the loop [for suf in suffixes]. *)
Definition strip_suffix (name : list ascii) (suf : string) : list ascii :=
  if endswith name (chars suf) then chop (length (chars suf)) name else name.

(** The whole loop over a list of suffixes. *)
Definition strip_suffixes (sufs : list string) (name : list ascii)
  : list ascii :=
  fold_left strip_suffix sufs name.

(** [if name.endswith("s"): name = name[:-1]] *)
Definition strip_trailing_s (name : list ascii) : list ascii :=
  if endswith name (chars "s") then chop 1 name else name.

(** [name.lower().strip()] followed by the [re.sub]. *)
Definition clean (s : list ascii) : list ascii :=
  remove_seps (strip (lower s)).

Definition normalize_chars (s : list ascii) : list ascii :=
  strip_trailing_s (strip_suffixes suffixes (clean s)).

Definition normalize_name (name : pyval) : string :=
  match name with
  | PyStr s => text (normalize_chars (chars s))
  | _ => ""
  end.

Global Arguments normalize_name : simpl never.
Global Arguments normalize_chars : simpl never.
Global Arguments clean : simpl never.
Global Arguments strip_suffixes : simpl never.
Global Arguments text : simpl never.
Global Arguments chars : simpl never.

(** A character that may occur in a key: no separator, no capital. *)
Definition key_char (c : ascii) : Prop :=
  is_sep c = false ∧ isupper c = false.

(** The normaliser as section 4.1 of the specification words it: the
    suffix list is searched in order and only the first suffix that
    matches is removed. Kept apart from [normalize_name] to be compared
    with it. *)
Fixpoint strip_first_suffix (sufs : list string) (name : list ascii)
  : list ascii :=
  match sufs with
  | [] => name
  | suf :: rest =>
      if endswith name (chars suf) then chop (length (chars suf)) name
      else strip_first_suffix rest name
  end.

Definition normalize_name_first_only (name : pyval) : string :=
  match name with
  | PyStr s =>
      text (strip_trailing_s (strip_first_suffix suffixes (clean (chars s))))
  | _ => ""
  end.

(** [s.lower()], [s.strip()], truth value and [needle in hay] on [str]. *)
Definition lower_str (s : string) : string := text (lower (chars s)).
Definition strip_str (s : string) : string := text (strip (chars s)).
Definition truthy (s : string) : bool := negb (bool_decide (s = "")).

Fixpoint contains_chars (needle hay : list ascii) : bool :=
  bool_decide (needle `prefix_of` hay)
  || match hay with
     | [] => false
     | _ :: hay' => contains_chars needle hay'
     end.
Definition contains (needle hay : string) : bool :=
  contains_chars (chars needle) (chars hay).

(** [needle] occurs in [hay]; a label is like a key when the key occurs
    in the lower-cased label; the first such label of a list. *)
Definition substring (needle hay : list ascii) : Prop :=
  ∃ before after, hay = before ++ needle ++ after.

Definition label_like (key col : string) : Prop :=
  substring (chars key) (chars (lower_str col)).

Definition first_label (key : string) (cols : list string) : option string :=
  List.find (λ col, contains key (lower_str col)) cols.

(** ** Effects: one mutable state and exceptions *)

Inductive outcome (A : Type) : Type :=
  | Returned (a : A)
  | Raised.
Global Arguments Returned {A} a.
Global Arguments Raised {A}.

Definition prog (S A : Type) : Type := S → outcome A * S.

Definition ret {S A} (a : A) : prog S A := λ s, (Returned a, s).
Definition raise {S A} : prog S A := λ s, (Raised, s).
Definition bind {S A B} (m : prog S A) (k : A → prog S B) : prog S B :=
  λ s, match m s with
       | (Returned a, s') => k a s'
       | (Raised, s') => (Raised, s')
       end.
Definition modify {S} (f : S → S) : prog S unit := λ s, (Returned tt, f s).

(** [for x in l: body] *)
Fixpoint for_each {S A} (l : list A) (body : A → prog S unit) : prog S unit :=
  match l with
  | [] => ret tt
  | x :: l' => bind (body x) (λ _, for_each l' body)
  end.

(** [try: body] followed by [except Exception: pass] (or [continue], or
    a [return] of the state): what the body did to the state stays. *)
Definition try_pass {S} (body : prog S unit) : prog S unit :=
  λ s, (Returned tt, (body s).2).

(** ** Tables *)

(** A frame has its column labels and its rows; a row holds the cells
    that are present, and a label without a cell reads [NaN]. *)
Record frame := Frame {
  columns : list string;
  rows : list (gmap string pyval)
}.

(** The files the reader can be pointed at: a path with no entry does not
    exist, [Some None] is a file the reader rejects, or one whose labels
    are not text (then [c.lower()] raises before any row is read). *)
Abbreviation files := (gmap string (option frame)).

(** [os.path.exists(p)] *)
Definition path_exists (fs : files) (p : string) : bool :=
  bool_decide (is_Some (fs !! p)).

(** [pd.read_csv(p)] and [pd.read_excel(p, skiprows=4, dtype=str)] *)
Definition read_table {S} (fs : files) (p : string) : prog S frame :=
  match fs !! p with
  | Some (Some df) => ret df
  | _ => raise
  end.

(** [row[col]] for a label of the frame *)
Definition cell (row : gmap string pyval) (col : string) : pyval :=
  default PyNaN (row !! col).

(** [row.get(col)], where [col] may be [None] *)
Definition row_get (row : gmap string pyval) (col : option string) : pyval :=
  match col with
  | Some c => cell row c
  | None => PyNone
  end.

(** [a or b] on the results of [cols.get]: a label stored under a
    non-empty lower-case key is non-empty, so it is true when present. *)
Definition py_or (a b : option string) : option string :=
  match a with
  | Some _ => a
  | None => b
  end.

(** [{c.lower(): c for c in df.columns}] *)
Definition lower_index (cols : list string) : gmap string string :=
  fold_left (λ m c, <[lower_str c := c]> m) cols ∅.

Section Reader.

(** How pandas reads a number in a text cell ([None]: not a number), and
    how Python prints a float. *)
Variable to_numeric : string → option Qc.
Variable str_of_num : Qc → string.

(** [pd.to_numeric(column, errors='coerce')], on one cell *)
Definition numeric (v : pyval) : pyval :=
  match v with
  | PyStr s => match to_numeric s with Some q => PyNum q | None => PyNaN end
  | PyNum q => PyNum q
  | PyNaN | PyNone => PyNaN
  end.

(** [row.get(col)] for a column that went through [pd.to_numeric]: the
    guard [if qty_col:] holds for every label that was found. *)
Definition row_get_numeric (row : gmap string pyval) (col : option string)
  : pyval :=
  match col with
  | Some c => numeric (cell row c)
  | None => PyNone
  end.

(** [str(v)] *)
Definition py_str (v : pyval) : string :=
  match v with
  | PyStr s => s
  | PyNum q => str_of_num q
  | PyNaN => "nan"
  | PyNone => "None"
  end.

(** ** Identifier Mapper *)

(** The loop over [df.columns]: the first label containing "vendor" and
    the first containing "brand", whatever the case. *)
Definition pick_column (cur : option string) (key col : string)
  : option string :=
  if bool_decide (cur = None) && contains key (lower_str col)
  then Some col else cur.

Definition pick_columns (cols : list string) : option string * option string :=
  fold_left (λ '(vendor_col, brand_col) col,
               (pick_column vendor_col "vendor" col,
                pick_column brand_col "brand" col))
            cols (None, None).

(** The body of the loop over [df.iterrows()]. *)
Definition mapping_row (vendor_col brand_col : string)
    (row : gmap string pyval) (mapping : gmap string string)
  : gmap string string :=
  let vendor := strip_str (py_str (cell row vendor_col)) in
  let brand := strip_str (py_str (cell row brand_col)) in
  if truthy vendor && truthy brand
  then <[normalize_name (PyStr vendor) := brand]> mapping
  else mapping.

(** The body of the [try]. *)
Definition vendor_mapping_body (fs : files) (p : string)
  : prog (gmap string string) unit :=
  bind (read_table fs p) (λ df,
    match pick_columns (columns df) with
    | (Some vendor_col, Some brand_col) =>
        for_each (rows df) (λ row, modify (mapping_row vendor_col brand_col row))
    | _ => ret tt
    end).

Definition load_vendor_mapping (fs : files) (csv_path : option string)
  : outcome (gmap string string) :=
  let run : prog (gmap string string) unit :=
    match csv_path with
    | Some p =>
        if truthy p && path_exists fs p
        then try_pass (vendor_mapping_body fs p)
        else ret tt
    | None => ret tt
    end in
  match run ∅ with
  | (Returned _, mapping) => Returned mapping
  | (Raised, _) => Raised
  end.

(** The entry a row writes, if any, and the entries of all rows in row
    order. *)
Definition mapping_entry (vendor_col brand_col : string)
    (row : gmap string pyval) : option (string * string) :=
  let vendor := strip_str (py_str (cell row vendor_col)) in
  let brand := strip_str (py_str (cell row brand_col)) in
  if truthy vendor && truthy brand
  then Some (normalize_name (PyStr vendor), brand)
  else None.

Definition mapping_entries (vendor_col brand_col : string)
    (rows : list (gmap string pyval)) : list (string * string) :=
  omap (mapping_entry vendor_col brand_col) rows.

(** ** Inventory Aggregator *)

(** [mapping.get(normalize_name(name), name)] *)
Definition canonical (mapping : gmap string string) (name : string) : string :=
  default name (mapping !! normalize_name (PyStr name)).

Definition add_inventory (mapping : gmap string string)
    (vendor : string) (qty cost : Qc) (inventory_data : gmap string (Qc * Qc))
  : gmap string (Qc * Qc) :=
  let brand_canonical := canonical mapping vendor in
  let '(total_cost, total_qty) :=
    default (0, 0) (inventory_data !! brand_canonical) in
  <[brand_canonical := (total_cost + cost, total_qty + qty)]> inventory_data.

Definition inventory_row (mapping : gmap string string)
    (vendor_col qty_col cost_col : option string)
    (row : gmap string pyval) (inventory_data : gmap string (Qc * Qc))
  : gmap string (Qc * Qc) :=
  match row_get row vendor_col, row_get_numeric row qty_col,
        row_get_numeric row cost_col with
  | PyStr vendor, PyNum qty, PyNum cost =>
      add_inventory mapping vendor qty cost inventory_data
  | _, _, _ => inventory_data
  end.

Definition inventory_body (fs : files) (p : string)
    (mapping : gmap string string) : prog (gmap string (Qc * Qc)) unit :=
  bind (read_table fs p) (λ inv_df,
    let cols := lower_index (columns inv_df) in
    let vendor_col := py_or (cols !! "vendor name") (cols !! "vendor") in
    let qty_col :=
      py_or (py_or (cols !! "quantity") (cols !! "qty"))
            (cols !! "quantity received") in
    let cost_col :=
      py_or (py_or (cols !! "inventory cost") (cols !! "cost"))
            (cols !! "inventory cost ($)") in
    match vendor_col, qty_col, cost_col with
    | Some _, Some _, Some _ =>
        for_each (rows inv_df)
          (λ row, modify (inventory_row mapping vendor_col qty_col cost_col row))
    | _, _, _ => ret tt
    end).

Definition load_inventory (fs : files) (inventory_path : string)
    (mapping : gmap string string) : outcome (gmap string (Qc * Qc)) :=
  let run : prog (gmap string (Qc * Qc)) unit :=
    if truthy inventory_path && path_exists fs inventory_path
    then try_pass (inventory_body fs inventory_path mapping)
    else ret tt in
  match run ∅ with
  | (Returned _, inventory_data) => Returned inventory_data
  | (Raised, _) => Raised
  end.

(** ** Sales Aggregator *)

Record sales_acc := SalesAcc {
  revenue_map : gmap string Qc;
  units_map : gmap string Qc;
  category_revenue : gmap string (gmap string Qc)
}.

(** What a row contributes once its [if] has passed. *)
Record sale := Sale {
  sale_brand : string;
  sale_qty : Qc;
  sale_revenue : Qc;
  sale_category : pyval
}.

(** [d[k] = d.get(k, 0.0) + v] *)
Definition bump (k : string) (v : Qc) (d : gmap string Qc) : gmap string Qc :=
  <[k := default 0 (d !! k) + v]> d.

(** The two lines under [if isinstance(category, str)]: [setdefault] hands
    out the dictionary of the brand, which the next line updates. *)
Definition bump_category (brand_canonical : string) (category : pyval)
    (v : Qc) (category_revenue : gmap string (gmap string Qc))
  : gmap string (gmap string Qc) :=
  match category with
  | PyStr category =>
      let category_dict := default ∅ (category_revenue !! brand_canonical) in
      <[brand_canonical := bump category v category_dict]> category_revenue
  | _ => category_revenue
  end.

Definition add_sale (mapping : gmap string string) (acc : sales_acc)
    (x : sale) : sales_acc :=
  let brand_canonical := canonical mapping (sale_brand x) in
  SalesAcc
    (bump brand_canonical (sale_revenue x) (revenue_map acc))
    (bump brand_canonical (sale_qty x) (units_map acc))
    (bump_category brand_canonical (sale_category x) (sale_revenue x)
       (category_revenue acc)).

(** The invariant of the accumulators. *)
Definition sales_inv (acc : sales_acc) : Prop :=
  dom (revenue_map acc) = dom (units_map acc)
  ∧ dom (category_revenue acc) ⊆ dom (revenue_map acc).

Record sales_columns := SalesColumns {
  brand_col : option string;
  category_col : option string;
  qty_col : option string;
  revenue_col : option string
}.

Definition sales_columns_of (df : frame) : sales_columns :=
  let cols := lower_index (columns df) in
  {| brand_col := py_or (cols !! "brand name") (cols !! "brand");
     category_col := cols !! "category";
     qty_col :=
       py_or (py_or (cols !! "quantity sold") (cols !! "units sold"))
             (cols !! "quantity");
     revenue_col := py_or (cols !! "net sales") (cols !! "revenue") |}.

(** The cells the row loop reads, when they pass its [if]. *)
Definition read_sale (sc : sales_columns) (row : gmap string pyval)
  : option sale :=
  match row_get row (brand_col sc), row_get_numeric row (qty_col sc),
        row_get_numeric row (revenue_col sc) with
  | PyStr brand, PyNum qty, PyNum revenue =>
      Some (Sale brand qty revenue (row_get row (category_col sc)))
  | _, _, _ => None
  end.

Definition sales_row (mapping : gmap string string) (sc : sales_columns)
    (row : gmap string pyval) (acc : sales_acc) : sales_acc :=
  match read_sale sc row with
  | Some x => add_sale mapping acc x
  | None => acc
  end.

Definition sales_body (fs : files) (mapping : gmap string string)
    (sales_path : string) : prog sales_acc unit :=
  bind (read_table fs sales_path) (λ df,
    for_each (rows df) (λ row, modify (sales_row mapping (sales_columns_of df) row))).

Definition load_sales (fs : files) (sales_paths : list string)
    (mapping : gmap string string) : outcome sales_acc :=
  let run : prog sales_acc unit :=
    for_each sales_paths (λ sales_path,
      if truthy sales_path && path_exists fs sales_path
      then try_pass (sales_body fs mapping sales_path)
      else ret tt) in
  match run (SalesAcc ∅ ∅ ∅) with
  | (Returned _, acc) => Returned acc
  | (Raised, _) => Raised
  end.

(** The rows of a source that pass the [if] of the row loop, and those of
    a list of sources; a path that is skipped has none. *)
Definition valid_sales (df : frame) : list sale :=
  omap (read_sale (sales_columns_of df)) (rows df).

Definition source_sales (fs : files) (sales_path : string) : list sale :=
  if truthy sales_path
  then match fs !! sales_path with
       | Some (Some df) => valid_sales df
       | _ => []
       end
  else [].

Definition all_sales (fs : files) (sales_paths : list string) : list sale :=
  concat (source_sales fs <$> sales_paths).

End Reader.

(** ** Metrics Engine *)

(** [sum(l)] and [sum(d.values())] *)
Definition sum_list (l : list Qc) : Qc := fold_left Qcplus l 0.
Definition sum_values (d : gmap string Qc) : Qc :=
  sum_list ((map_to_list d).*2).

Definition Qc_of_nat (n : nat) : Qc := Qc_of_Z (Z.of_nat n).

Record brand_metric := BrandMetric {
  brand : string;
  revenue : Qc;
  units : Qc;
  avg_unit_cost : option Qc;
  ppi_index : Qc;
  sell_through_pct : Qc;
  category_mix : gmap string Qc;
  revenue_share : option Qc;     (* no such key before [build_json] *)
  history : list pyval
}.

(** The first loop: the average cost of the brands with a positive
    quantity. *)
Definition brand_costs (inventory_data : gmap string (Qc * Qc))
  : gmap string Qc :=
  omap (λ '(total_cost, total_qty),
          if decide (0 < total_qty) then Some (total_cost / total_qty)
          else None)
       inventory_data.

(** [sum(costs.values()) / len(costs) if costs else None] *)
Definition overall_avg_cost (costs : gmap string Qc) : option Qc :=
  if decide (costs = ∅) then None
  else Some (sum_values costs / Qc_of_nat (size costs)).

(** The body of the loop over [all_brands]. *)
Definition brand_entry (inventory_data : gmap string (Qc * Qc))
    (revenue_map units_map : gmap string Qc)
    (category_revenue : gmap string (gmap string Qc))
    (overall : option Qc) (brand : string) : brand_metric :=
  let revenue := default 0 (revenue_map !! brand) in
  let units_sold := default 0 (units_map !! brand) in
  let '(total_cost, total_qty) := default (0, 0) (inventory_data !! brand) in
  let avg_unit_cost :=
    if decide (0 < total_qty) then Some (total_cost / total_qty) else None in
  let ppi_index :=
    match avg_unit_cost, overall with
    | Some avg, Some overall_avg =>
        if bool_decide (overall_avg ≠ 0) && bool_decide (0 < overall_avg)
        then avg / overall_avg * Qc_of_Z 100
        else 0
    | _, _ => 0
    end in
  let units_received := total_qty in
  let sell_through :=
    if decide (0 < units_received + units_sold)
    then units_sold / (units_sold + units_received)
    else 0 in
  let cat_rev := default ∅ (category_revenue !! brand) in
  let cat_total := sum_values cat_rev in
  let cat_mix : gmap string Qc :=
    if decide (0 < cat_total) then (λ rev, rev / cat_total) <$> cat_rev
    else ∅ in
  BrandMetric brand revenue units_sold avg_unit_cost ppi_index sell_through
              cat_mix None [].

Definition compute_metrics (inventory_data : gmap string (Qc * Qc))
    (revenue_map units_map : gmap string Qc)
    (category_revenue : gmap string (gmap string Qc))
  : gmap string brand_metric :=
  let overall := overall_avg_cost (brand_costs inventory_data) in
  let all_brands : gset string :=
    dom revenue_map ∪ dom units_map ∪ dom inventory_data in
  fold_left
    (λ brand_data brand,
       <[brand := brand_entry inventory_data revenue_map units_map
                              category_revenue overall brand]> brand_data)
    (elements all_brands) ∅.

(** What the loop reads for a brand: its inventory totals and the units it
    sold, with the defaults of [dict.get]. *)
Definition inventory_cost (inventory_data : gmap string (Qc * Qc))
    (brand : string) : Qc :=
  (default (0, 0) (inventory_data !! brand)).1.
Definition inventory_quantity (inventory_data : gmap string (Qc * Qc))
    (brand : string) : Qc :=
  (default (0, 0) (inventory_data !! brand)).2.
Definition units_sold_of (units_map : gmap string Qc) (brand : string) : Qc :=
  default 0 (units_map !! brand).

(** ** Document Assembler *)

Record document := Document {
  meta_title : string;
  meta_as_of : string;
  meta_currency : string;
  meta_geography : string;
  meta_notes : string;
  kpi_total_revenue : Qc;
  kpi_total_units : Qc;
  brands : list brand_metric
}.

(** [b['revenue_share'] = share] *)
Definition set_share (total_revenue : Qc) (b : brand_metric) : brand_metric :=
  let share :=
    if decide (0 < total_revenue) then revenue b / total_revenue else 0 in
  BrandMetric (brand b) (revenue b) (units b) (avg_unit_cost b) (ppi_index b)
              (sell_through_pct b) (category_mix b) (Some share) (history b).

(** [brands_list.sort(key=lambda x: x['revenue'], reverse=True)]: a stable
    sort, so a record stays before the later records of the same revenue. *)
Fixpoint insert_by_revenue (b : brand_metric) (l : list brand_metric)
  : list brand_metric :=
  match l with
  | [] => [b]
  | b' :: l' =>
      if decide (revenue b < revenue b') then b' :: insert_by_revenue b l'
      else b :: l
  end.
Definition sort_by_revenue (l : list brand_metric) : list brand_metric :=
  foldr insert_by_revenue [] l.

(** The title, stored as the bytes of its UTF-8 form. *)
Definition title : string := "Brand PPI + Sell‑Through + Revenue CRM".

(** [today] stands for [pd.Timestamp.now().strftime('%Y-%m-%d')]. *)
Definition build_json (today : string) (brand_data : gmap string brand_metric)
    (notes geography currency : string) : document :=
  let values := (map_to_list brand_data).*2 in
  let total_revenue := sum_list (revenue <$> values) in
  let total_units := sum_list (units <$> values) in
  let brands_list := set_share total_revenue <$> values in
  {| meta_title := title;
     meta_as_of := today;
     meta_currency := currency;
     meta_geography := geography;
     meta_notes := notes;
     kpi_total_revenue := total_revenue;
     kpi_total_units := total_units;
     brands := sort_by_revenue brands_list |}.

(** ** The rows behind the aggregates *)

(** What an inventory row contributes once its [if] has passed. *)
Record purchase := Purchase {
  purchase_vendor : string;
  purchase_qty : Qc;
  purchase_cost : Qc
}.

Definition add_purchase (mapping : gmap string string)
    (inventory_data : gmap string (Qc * Qc)) (x : purchase)
  : gmap string (Qc * Qc) :=
  add_inventory mapping (purchase_vendor x) (purchase_qty x) (purchase_cost x)
                inventory_data.

(** The three labels [load_inventory] looks up. *)
Definition inventory_columns (df : frame)
  : option string * option string * option string :=
  let cols := lower_index (columns df) in
  (py_or (cols !! "vendor name") (cols !! "vendor"),
   py_or (py_or (cols !! "quantity") (cols !! "qty"))
         (cols !! "quantity received"),
   py_or (py_or (cols !! "inventory cost") (cols !! "cost"))
         (cols !! "inventory cost ($)")).

Section ReaderViews.

Variable to_numeric : string → option Qc.

Definition read_purchase (vendor_col qty_col cost_col : option string)
    (row : gmap string pyval) : option purchase :=
  match row_get row vendor_col, row_get_numeric to_numeric row qty_col,
        row_get_numeric to_numeric row cost_col with
  | PyStr vendor, PyNum qty, PyNum cost => Some (Purchase vendor qty cost)
  | _, _, _ => None
  end.

(** The rows of an inventory frame that are added up: none when one of
    the three labels is missing. *)
Definition valid_purchases (df : frame) : list purchase :=
  match inventory_columns df with
  | (Some v, Some q, Some c) =>
      omap (read_purchase (Some v) (Some q) (Some c)) (rows df)
  | _ => []
  end.

Definition source_purchases (fs : files) (inventory_path : string)
  : list purchase :=
  if truthy inventory_path
  then match fs !! inventory_path with
       | Some (Some df) => valid_purchases df
       | _ => []
       end
  else [].

End ReaderViews.

(** The rows of a brand, by the canonical name of their vendor or brand. *)
Definition purchases_of (mapping : gmap string string) (b : string)
    (l : list purchase) : list purchase :=
  filter (λ x, canonical mapping (purchase_vendor x) = b) l.

Definition sales_of (mapping : gmap string string) (b : string)
    (l : list sale) : list sale :=
  filter (λ x, canonical mapping (sale_brand x) = b) l.

Global Instance pyval_eq_dec : EqDecision pyval.
Proof. solve_decision. Defined.


Definition in_category (c : string) (l : list sale) : list sale :=
  filter (λ x, sale_category x = PyStr c) l.

(** ** The command *)

(** The parsed arguments of [main]. *)
Record args := Args {
  arg_inventory : string;
  arg_sales : list string;
  arg_vendor_map : option string;
  arg_output : string;
  arg_notes : string;
  arg_geography : string;
  arg_currency : string
}.

Definition and_then {A B} (o : outcome A) (k : A → outcome B) : outcome B :=
  match o with
  | Returned a => k a
  | Raised => Raised
  end.

(** [main] after [parse_args]: it returns the document it dumps and the
    number of brands it reports. [can_write] tells whether
    [open(args.output, 'w')] succeeds. *)
Definition main (to_numeric : string → option Qc) (str_of_num : Qc → string)
    (fs : files) (can_write : string → bool) (today : string) (a : args)
  : outcome (document * nat) :=
  and_then (load_vendor_mapping str_of_num fs (arg_vendor_map a)) (λ mapping,
  and_then (load_inventory to_numeric fs (arg_inventory a) mapping)
    (λ inventory_data,
  and_then (load_sales to_numeric fs (arg_sales a) mapping) (λ acc,
    let brand_data :=
      compute_metrics inventory_data (revenue_map acc) (units_map acc)
                      (category_revenue acc) in
    let json_data :=
      build_json today brand_data (arg_notes a) (arg_geography a)
                 (arg_currency a) in
    if can_write (arg_output a)
    then Returned (json_data, size brand_data)
    else Raised))).

(** The aggregates and the brand records of a run, given the canonical
    map it loaded: the folds that the loaders amount to. *)
Definition run_inventory (to_numeric : string → option Qc) (fs : files)
    (a : args) (mapping : gmap string string) : gmap string (Qc * Qc) :=
  fold_left (add_purchase mapping)
    (source_purchases to_numeric fs (arg_inventory a)) ∅.

Definition run_sales (to_numeric : string → option Qc) (fs : files)
    (a : args) (mapping : gmap string string) : sales_acc :=
  fold_left (add_sale mapping) (all_sales to_numeric fs (arg_sales a))
    (SalesAcc ∅ ∅ ∅).

Definition run_brand_data (to_numeric : string → option Qc) (fs : files)
    (a : args) (mapping : gmap string string) : gmap string brand_metric :=
  compute_metrics (run_inventory to_numeric fs a mapping)
    (revenue_map (run_sales to_numeric fs a mapping))
    (units_map (run_sales to_numeric fs a mapping))
    (category_revenue (run_sales to_numeric fs a mapping)).

(** ** Sample inputs *)

(** A reader of decimal integers with an optional minus sign, and a
    printer that is never called on the samples, to run the loaders on
    sample frames. *)
Definition digit (c : ascii) : option Z :=
  let n := code c in
  if (48 <=? n)%nat && (n <=? 57)%nat then Some (Z.of_nat (n - 48)) else None.

Definition read_digits (cs : list ascii) : option Z :=
  match cs with
  | [] => None
  | _ => fold_left (λ acc c, n ← acc; d ← digit c; Some (10 * n + d)%Z)
                   cs (Some 0%Z)
  end.

Definition read_decimal (s : string) : option Qc :=
  match chars s with
  | "-"%char :: cs => (λ n, Qc_of_Z (- n)) <$> read_digits cs
  | cs => Qc_of_Z <$> read_digits cs
  end.

Definition print_none (q : Qc) : string := "".

Definition sales_q1 : frame :=
  Frame ["Brand Name"; "Category"; "Quantity Sold"; "Net Sales"]
    [ {[ "Brand Name" := PyStr "Acme"; "Category" := PyStr "Flower";
         "Quantity Sold" := PyStr "10"; "Net Sales" := PyStr "100" ]};
      {[ "Brand Name" := PyStr "Bolt"; "Category" := PyStr "Flower";
         "Quantity Sold" := PyStr "n/a"; "Net Sales" := PyStr "7" ]} ].

Definition sales_q2 : frame :=
  Frame ["brand"; "category"; "quantity"; "revenue"]
    [ {[ "brand" := PyStr "Acme"; "category" := PyStr "Edible";
         "quantity" := PyStr "20"; "revenue" := PyStr "200" ]} ].

Definition sales_all : frame :=
  Frame ["Brand"; "Category"; "Units Sold"; "Revenue"]
    [ {[ "Brand" := PyStr "Acme"; "Category" := PyStr "Edible";
         "Units Sold" := PyStr "20"; "Revenue" := PyStr "200" ]};
      {[ "Brand" := PyStr "Acme"; "Category" := PyStr "Flower";
         "Units Sold" := PyStr "10"; "Revenue" := PyStr "100" ]} ].

(** Returns only: five units came back. *)
Definition sales_returns : frame :=
  Frame ["Brand"; "Quantity"; "Revenue"]
    [ {[ "Brand" := PyStr "Acme"; "Quantity" := PyStr "-5";
         "Revenue" := PyStr "-50" ]} ].

Definition inventory_received : frame :=
  Frame ["Vendor Name"; "Quantity"; "Inventory Cost"]
    [ {[ "Vendor Name" := PyStr "Acme"; "Quantity" := PyStr "10";
         "Inventory Cost" := PyStr "100" ]} ].

(** More units went back to the vendor than came in. *)
Definition inventory_sent_back : frame :=
  Frame ["Vendor"; "Qty"; "Cost"]
    [ {[ "Vendor" := PyStr "Acme"; "Qty" := PyStr "5";
         "Cost" := PyStr "20" ]};
      {[ "Vendor" := PyStr "Acme"; "Qty" := PyStr "-10";
         "Cost" := PyStr "-10" ]} ].

Definition vendor_map : frame :=
  Frame ["Vendor Name"; "Canonical Brand"; "Notes"]
    [ {[ "Vendor Name" := PyStr "Acme Farm";
         "Canonical Brand" := PyStr " Acme Industries " ]};
      {[ "Vendor Name" := PyStr "Bolt Co";
         "Canonical Brand" := PyStr "Bolt" ]};
      {[ "Vendor Name" := PyStr "  "; "Canonical Brand" := PyStr "Nobody" ]};
      {[ "Vendor Name" := PyStr "Bolt, Inc."; "Canonical Brand" := PyStr "Bolt Labs" ]} ].

Definition sample_files : files :=
  {[ "q1.xlsx" := Some sales_q1; "q2.xlsx" := Some sales_q2;
     "all.xlsx" := Some sales_all; "returns.xlsx" := Some sales_returns;
     "received.xlsx" := Some inventory_received;
     "sent_back.xlsx" := Some inventory_sent_back;
     "map.csv" := Some vendor_map; "broken.xlsx" := None ]}.

(** * Properties of the Name Normalizer *)

Section Normalizer.

Implicit Types (s name : list ascii) (c : ascii).

Example normalize_green_leaf :
  normalize_name (PyStr "Green Leaf Farms, LLC") = "greenleaf"
  ∧ normalize_name (PyStr "Green Leaf Farm") = "greenleaf".
Proof. split; vm_compute; reflexivity. Qed.

Example normalize_acme :
  normalize_name (PyStr "Acme Co LLC") = "acme"
  ∧ normalize_name_first_only (PyStr "Acme Co LLC") = "acmeco".
Proof. split; vm_compute; reflexivity. Qed.

Example normalize_glass :
  normalize_name (PyStr "Glass") = "glas"
  ∧ normalize_name (PyStr "glas") = "gla".
Proof. split; vm_compute; reflexivity. Qed.

Lemma chars_text l : chars (text l) = l.
Proof. apply list_ascii_of_string_of_list_ascii. Qed.

Lemma text_chars (s : string) : text (chars s) = s.
Proof. apply string_of_list_ascii_of_string. Qed.

Lemma text_inj l1 l2 : text l1 = text l2 → l1 = l2.
Proof. intros H. by rewrite <-(chars_text l1), H, chars_text. Qed.

Lemma isupper_lower_char c : isupper (lower_char c) = false.
Proof. destruct c as [[] [] [] [] [] [] [] []]; reflexivity. Qed.

Lemma lower_char_id c : isupper c = false → lower_char c = c.
Proof. unfold lower_char. by intros ->. Qed.

Lemma Forall_lstrip (P : ascii → Prop) s : Forall P s → Forall P (lstrip s).
Proof.
  induction 1 as [|c s Hc Hs IH]; simpl; [constructor|].
  destruct (isspace c); [exact IH | by constructor].
Qed.

Lemma Forall_strip (P : ascii → Prop) s : Forall P s → Forall P (strip s).
Proof.
  intros H. unfold strip, rstrip.
  apply Forall_rev, Forall_lstrip, Forall_rev, Forall_lstrip, H.
Qed.

Lemma Forall_lower s : Forall (λ c, isupper c = false) (lower s).
Proof.
  unfold lower. induction s; simpl; constructor; auto using isupper_lower_char.
Qed.

Lemma clean_key_chars s : Forall key_char (clean s).
Proof.
  unfold clean, remove_seps.
  apply list.Forall_forall. intros c [Hsep Hin]%list_elem_of_filter.
  split; [exact Hsep|]. clear Hsep.
  revert c Hin. apply list.Forall_forall, Forall_strip, Forall_lower.
Qed.

Lemma chop_prefix k name : chop k name `prefix_of` name.
Proof. apply prefix_take. Qed.

Lemma strip_suffix_prefix name suf : strip_suffix name suf `prefix_of` name.
Proof.
  unfold strip_suffix. destruct (endswith _ _); [apply chop_prefix | done].
Qed.

Lemma strip_suffixes_nil name : strip_suffixes [] name = name.
Proof. reflexivity. Qed.

Lemma strip_suffixes_cons suf sufs name :
  strip_suffixes (suf :: sufs) name
  = strip_suffixes sufs (strip_suffix name suf).
Proof. reflexivity. Qed.

Lemma strip_suffixes_prefix sufs name :
  strip_suffixes sufs name `prefix_of` name.
Proof.
  revert name. induction sufs as [|suf sufs IH]; intros name; [done|].
  rewrite strip_suffixes_cons.
  etrans; [apply IH | apply strip_suffix_prefix].
Qed.

Lemma strip_trailing_s_prefix name : strip_trailing_s name `prefix_of` name.
Proof.
  unfold strip_trailing_s. destruct (endswith _ _); [apply chop_prefix | done].
Qed.

Lemma normalize_chars_prefix s : normalize_chars s `prefix_of` clean s.
Proof.
  unfold normalize_chars.
  etrans; [apply strip_trailing_s_prefix | apply strip_suffixes_prefix].
Qed.

Lemma Forall_prefix (P : ascii → Prop) l1 l2 :
  l1 `prefix_of` l2 → Forall P l2 → Forall P l1.
Proof. intros [k ->] H. by apply Forall_app in H as [? _]. Qed.

Lemma normalize_chars_key_chars s : Forall key_char (normalize_chars s).
Proof.
  eapply Forall_prefix; [apply normalize_chars_prefix | apply clean_key_chars].
Qed.

(** *** Keys are fixed by the character clean-up *)

Lemma lstrip_id s : Forall (λ c, isspace c = false) s → lstrip s = s.
Proof. destruct 1 as [|c s Hc _]; simpl; [done | by rewrite Hc]. Qed.

Lemma strip_id s : Forall (λ c, isspace c = false) s → strip s = s.
Proof.
  intros H. unfold strip, rstrip. rewrite (lstrip_id s H).
  rewrite lstrip_id by by apply Forall_rev. apply rev_involutive.
Qed.

Lemma lower_id s : Forall (λ c, isupper c = false) s → lower s = s.
Proof.
  unfold lower. induction 1 as [|c s Hc _ IH]; simpl; [done|].
  by rewrite lower_char_id, IH.
Qed.

Lemma key_char_not_space c : key_char c → isspace c = false.
Proof.
  intros [H _]. unfold is_sep in H.
  by destruct (isspace c).
Qed.

Lemma clean_id s : Forall key_char s → clean s = s.
Proof.
  intros H. unfold clean, remove_seps.
  rewrite lower_id by (eapply Forall_impl; [|exact H]; by intros c [_ ?]).
  rewrite strip_id
    by (eapply Forall_impl; [|exact H]; apply key_char_not_space).
  induction H as [|c s [Hc _] _ IH]; [done|].
  rewrite filter_cons_True by done. by rewrite IH.
Qed.

(** *** When the suffix loop leaves a name alone *)

Lemma endswith_length name suf :
  endswith name suf = true → (length suf ≤ length name)%nat.
Proof.
  unfold endswith. intros H%bool_decide_eq_true.
  rewrite <-H at 1. rewrite length_drop. lia.
Qed.

Lemma chop_length k name : length (chop k name) = (length name - k)%nat.
Proof. unfold chop. rewrite length_take. lia. Qed.

Lemma strip_suffix_id name suf :
  chars suf ≠ [] →
  strip_suffix name suf = name ↔ endswith name (chars suf) = false.
Proof.
  intros Hne. unfold strip_suffix.
  destruct (endswith name (chars suf)) eqn:He; [|done].
  split; [|done]. intros Heq. apply endswith_length in He.
  apply (f_equal length) in Heq. rewrite chop_length in Heq.
  destruct (chars suf); [done|]. simpl in *. lia.
Qed.

Lemma strip_suffixes_id sufs name :
  Forall (λ suf, chars suf ≠ []) sufs →
  strip_suffixes sufs name = name
  ↔ Forall (λ suf, endswith name (chars suf) = false) sufs.
Proof.
  intros Hne. revert name.
  induction Hne as [|suf sufs Hsuf _ IH]; intros name.
  { split; [constructor | done]. }
  rewrite strip_suffixes_cons. split.
  - intros Heq.
    assert (strip_suffix name suf = name) as Hone.
    { apply prefix_length_eq; [apply strip_suffix_prefix|].
      rewrite <-Heq at 1. apply prefix_length, strip_suffixes_prefix. }
    rewrite Hone in Heq.
    constructor; [by apply strip_suffix_id | by apply IH].
  - intros [He Hrest]%list.Forall_cons.
    apply strip_suffix_id in He; [|done]. rewrite He. by apply IH.
Qed.

Lemma strip_trailing_s_id name :
  strip_trailing_s name = name ↔ endswith name (chars "s") = false.
Proof. by apply (strip_suffix_id name "s"). Qed.

Lemma suffixes_nonempty : Forall (λ suf, chars suf ≠ []) suffixes.
Proof. repeat constructor; discriminate. Qed.

(** A second run of the normaliser on a key only strips: it returns the
    key exactly when nothing is left to strip. *)
Lemma normalize_chars_fixed k :
  Forall key_char k →
  normalize_chars k = k
  ↔ Forall (λ suf, endswith k (chars suf) = false) suffixes
    ∧ endswith k (chars "s") = false.
Proof.
  intros Hk. unfold normalize_chars. rewrite (clean_id k Hk). split.
  - intros Heq.
    assert (strip_suffixes suffixes k = k) as Hsuf.
    { apply prefix_length_eq; [apply strip_suffixes_prefix|].
      rewrite <-Heq at 1. apply prefix_length, strip_trailing_s_prefix. }
    rewrite Hsuf in Heq. split.
    + by apply strip_suffixes_id; [apply suffixes_nonempty|].
    + by apply strip_trailing_s_id.
  - intros [Hsuf Hs].
    apply strip_suffixes_id in Hsuf; [|apply suffixes_nonempty].
    rewrite Hsuf. by apply strip_trailing_s_id.
Qed.

(** *** The suffix loop after its first match *)

Lemma strip_suffixes_no_match sufs name :
  Forall (λ suf, endswith name (chars suf) = false) sufs →
  strip_suffixes sufs name = name.
Proof.
  induction 1 as [|suf sufs He _ IH]; [done|].
  rewrite strip_suffixes_cons. unfold strip_suffix. by rewrite He.
Qed.

Lemma strip_suffixes_first_match pre suf post name :
  Forall (λ p, endswith name (chars p) = false) pre →
  endswith name (chars suf) = true →
  strip_suffixes (pre ++ suf :: post) name
  = strip_suffixes post (chop (length (chars suf)) name).
Proof.
  intros Hpre Hsuf. unfold strip_suffixes at 1.
  rewrite fold_left_app. fold (strip_suffixes pre name).
  rewrite (strip_suffixes_no_match pre name Hpre).
  fold (strip_suffixes (suf :: post) name). rewrite strip_suffixes_cons.
  unfold strip_suffix. by rewrite Hsuf.
Qed.

Lemma strip_first_suffix_first_match pre suf post name :
  Forall (λ p, endswith name (chars p) = false) pre →
  endswith name (chars suf) = true →
  strip_first_suffix (pre ++ suf :: post) name
  = chop (length (chars suf)) name.
Proof.
  intros Hpre Hsuf. induction Hpre as [|p pre Hp _ IH]; simpl.
  - by rewrite Hsuf.
  - by rewrite Hp.
Qed.

Lemma suffixes_two_chars : Forall (λ suf, (2 ≤ length (chars suf))%nat) suffixes.
Proof. repeat constructor; simpl; lia. Qed.

Lemma strip_suffixes_shrinks sufs name :
  Forall (λ suf, (2 ≤ length (chars suf))%nat) sufs →
  strip_suffixes sufs name ≠ name →
  (length (strip_suffixes sufs name) + 2 ≤ length name)%nat.
Proof.
  intros Hlen. revert name.
  induction Hlen as [|suf sufs Hsuf _ IH]; intros name Hne; [done|].
  rewrite strip_suffixes_cons in *.
  destruct (endswith name (chars suf)) eqn:He.
  - pose proof (endswith_length _ _ He) as Hle.
    pose proof (prefix_length _ _
      (strip_suffixes_prefix sufs (strip_suffix name suf))) as Hp.
    unfold strip_suffix in Hp at 2. rewrite He, chop_length in Hp. lia.
  - assert (strip_suffix name suf = name) as Hid
      by (unfold strip_suffix; by rewrite He).
    rewrite Hid in *. by apply IH.
Qed.

Lemma strip_trailing_s_length name :
  (length name ≤ length (strip_trailing_s name) + 1)%nat.
Proof.
  unfold strip_trailing_s. destruct (endswith _ _); [|lia].
  rewrite chop_length. lia.
Qed.


(** C1, as stated, fails: ["Acme Co LLC"] is cleaned to ["acmecollc"], whose
    first matching suffix is ["llc"]; stripping that one alone leaves
    ["acmeco"], but the loop goes on and strips ["co"] too. *)
Lemma normalize_name_strips_two_suffixes :
  clean (chars "Acme Co LLC") = chars "acmecollc"
  ∧ strip_first_suffix suffixes (chars "acmecollc") = chars "acmeco"
  ∧ normalize_name (PyStr "Acme Co LLC") = "acme"
  ∧ normalize_name (PyStr "Acme Co LLC")
    ≠ normalize_name_first_only (PyStr "Acme Co LLC").
Proof. repeat split; vm_compute; congruence. Qed.

(** C1, amended: after lowercasing and removal of whitespace, hyphens,
    periods and commas, the suffix list is walked once in order. The first
    suffix the string ends with is stripped, and every later suffix of the
    list is then checked against the shortened string and stripped as well
    when it matches. The key is the one of a single strip exactly when the
    shortened string ends with none of the later suffixes. *)
Theorem normalize_name_suffix_pass (s : string) (pre : list string)
    (suf : string) (post : list string) :
  suffixes = pre ++ suf :: post →
  Forall (λ p, endswith (clean (chars s)) (chars p) = false) pre →
  endswith (clean (chars s)) (chars suf) = true →
  normalize_name (PyStr s)
  = text (strip_trailing_s
            (strip_suffixes post (chop (length (chars suf)) (clean (chars s)))))
  ∧ (normalize_name (PyStr s) = normalize_name_first_only (PyStr s)
     ↔ Forall (λ p, endswith (chop (length (chars suf)) (clean (chars s)))
                             (chars p) = false) post).
Proof.
  intros Hsplit Hpre Hsuf.
  unfold normalize_name, normalize_name_first_only, normalize_chars.
  rewrite Hsplit, strip_suffixes_first_match, strip_first_suffix_first_match
    by done.
  set (rest := chop (length (chars suf)) (clean (chars s))).
  split; [done|].
  assert (Forall (λ p, (2 ≤ length (chars p))%nat) post) as Hlen.
  { pose proof suffixes_two_chars as H. rewrite Hsplit in H.
    apply Forall_app in H as [_ H]. by apply list.Forall_cons in H as [_ H]. }
  assert (Forall (λ p, chars p ≠ []) post) as Hne.
  { eapply Forall_impl; [|exact Hlen]. intros p Hp Hnil.
    simpl in Hp. rewrite Hnil in Hp. simpl in Hp. lia. }
  split.
  - intros Heq%text_inj. apply strip_suffixes_id; [done|].
    destruct (decide (strip_suffixes post rest = rest)) as [|Hdiff]; [done|].
    exfalso. apply strip_suffixes_shrinks in Hdiff; [|done].
    pose proof (strip_trailing_s_length rest) as H1.
    pose proof (prefix_length _ _
      (strip_trailing_s_prefix (strip_suffixes post rest))) as H2.
    rewrite Heq in H2. lia.
  - intros Hno. by rewrite strip_suffixes_no_match.
Qed.

(** The suffix pass on ["Acme Co LLC"], whose first match is ["llc"]. *)
Lemma normalize_name_suffix_pass_witness :
  suffixes = [] ++ "llc" :: tail suffixes
  ∧ Forall (λ p, endswith (clean (chars "Acme Co LLC")) (chars p) = false) []
  ∧ endswith (clean (chars "Acme Co LLC")) (chars "llc") = true
  ∧ normalize_name (PyStr "Acme Co LLC")
    = text (strip_trailing_s
              (strip_suffixes (tail suffixes)
                 (chop (length (chars "llc")) (clean (chars "Acme Co LLC"))))).
Proof.
  split; [reflexivity|]. split; [constructor|]. split; [reflexivity|].
  apply (normalize_name_suffix_pass "Acme Co LLC" [] "llc" (tail suffixes));
    [reflexivity | constructor | reflexivity].
Defined.

(** C2, as stated, fails: the key of ["Glass"] is ["glas"], and the key of
    ["glas"] is ["gla"]. *)
Lemma normalize_name_not_idempotent :
  normalize_name (PyStr "Glass") = "glas"
  ∧ normalize_name (PyStr (normalize_name (PyStr "Glass"))) = "gla"
  ∧ normalize_name (PyStr (normalize_name (PyStr "Glass")))
    ≠ normalize_name (PyStr "Glass").
Proof. repeat split; vm_compute; congruence. Qed.

(** C2, amended: for every input x, textual or not,
    normalize_name(normalize_name(x)) == normalize_name(x) holds exactly
    when the key normalize_name(x) ends with none of the listed suffixes
    and not with "s"; this covers every non-textual x, whose key is
    empty. *)
Theorem normalize_name_idempotent_iff (x : pyval) :
  normalize_name (PyStr (normalize_name x)) = normalize_name x
  ↔ Forall (λ suf, endswith (chars (normalize_name x)) (chars suf) = false)
           suffixes
    ∧ endswith (chars (normalize_name x)) (chars "s") = false.
Proof.
  assert (∃ k, normalize_name x = text k ∧ Forall key_char k) as (k & -> & Hk).
  { destruct x; unfold normalize_name; try (by exists []).
    eexists. split; [done|]. apply normalize_chars_key_chars. }
  unfold normalize_name. rewrite chars_text. rewrite <-normalize_chars_fixed by done.
  split; [apply text_inj | by intros ->].
Qed.

(** Two keys with nothing left to strip: ["acme"] and the empty key of a
    value that is no text. *)
Lemma normalize_name_idempotent_iff_witness :
  normalize_name (PyStr (normalize_name (PyStr "Acme Co LLC")))
  = normalize_name (PyStr "Acme Co LLC")
  ∧ normalize_name (PyStr (normalize_name PyNaN)) = normalize_name PyNaN.
Proof.
  split.
  - apply (normalize_name_idempotent_iff (PyStr "Acme Co LLC")).
    split; [|reflexivity]. repeat constructor.
  - apply (normalize_name_idempotent_iff PyNaN).
    split; [|reflexivity]. repeat constructor.
Defined.

End Normalizer.

(** * Properties of the Metrics Engine *)

Section Metrics.

Implicit Types (inventory_data : gmap string (Qc * Qc)).
Implicit Types (revenue_map units_map : gmap string Qc).
Implicit Types (category_revenue : gmap string (gmap string Qc)).
Implicit Types (b : string) (r : brand_metric).

Lemma fold_insert_lookup (f : string → brand_metric) (l : list string)
    (m : gmap string brand_metric) b :
  fold_left (λ bd k, <[k := f k]> bd) l m !! b
  = if decide (b ∈ l) then Some (f b) else m !! b.
Proof.
  revert m. induction l as [|k l IH]; intros m; cbn [fold_left].
  { by rewrite decide_False by apply not_elem_of_nil. }
  rewrite IH. destruct (decide (b ∈ l)) as [Hin|Hin].
  - by rewrite decide_True by by right.
  - destruct (decide (k = b)) as [->|Hne].
    + rewrite lookup_insert_eq. by rewrite decide_True by by left.
    + rewrite lookup_insert_ne by done.
      rewrite decide_False; [done|].
      intros [?|?]%elem_of_cons; congruence.
Qed.

Lemma compute_metrics_lookup inventory_data revenue_map units_map
    category_revenue b :
  compute_metrics inventory_data revenue_map units_map category_revenue !! b
  = if decide (b ∈ dom revenue_map ∪ dom units_map ∪ dom inventory_data)
    then Some (brand_entry inventory_data revenue_map units_map
                 category_revenue
                 (overall_avg_cost (brand_costs inventory_data)) b)
    else None.
Proof.
  unfold compute_metrics. rewrite fold_insert_lookup, lookup_empty.
  apply decide_ext, elem_of_elements.
Qed.

Lemma brand_entry_brand inventory_data revenue_map units_map
    category_revenue overall b :
  brand (brand_entry inventory_data revenue_map units_map category_revenue
           overall b) = b.
Proof. unfold brand_entry. by destruct (default _ _). Qed.

Lemma brand_entry_revenue inventory_data revenue_map units_map
    category_revenue overall b :
  revenue (brand_entry inventory_data revenue_map units_map category_revenue
             overall b) = default 0 (revenue_map !! b).
Proof. unfold brand_entry. by destruct (default _ _). Qed.

Lemma brand_entry_units inventory_data revenue_map units_map
    category_revenue overall b :
  units (brand_entry inventory_data revenue_map units_map category_revenue
           overall b) = units_sold_of units_map b.
Proof. unfold brand_entry. by destruct (default _ _). Qed.

Lemma brand_entry_avg_unit_cost inventory_data revenue_map units_map
    category_revenue overall b :
  avg_unit_cost (brand_entry inventory_data revenue_map units_map
                   category_revenue overall b)
  = if decide (0 < inventory_quantity inventory_data b)
    then Some (inventory_cost inventory_data b
               / inventory_quantity inventory_data b)
    else None.
Proof.
  unfold brand_entry, inventory_quantity, inventory_cost.
  by destruct (default _ _).
Qed.

Lemma brand_entry_sell_through inventory_data revenue_map units_map
    category_revenue overall b :
  sell_through_pct (brand_entry inventory_data revenue_map units_map
                      category_revenue overall b)
  = if decide (0 < inventory_quantity inventory_data b
                   + units_sold_of units_map b)
    then units_sold_of units_map b
         / (units_sold_of units_map b + inventory_quantity inventory_data b)
    else 0.
Proof.
  unfold brand_entry, inventory_quantity, units_sold_of.
  by destruct (default _ _).
Qed.

Lemma brand_entry_ppi_no_cost inventory_data revenue_map units_map
    category_revenue overall b :
  ¬ 0 < inventory_quantity inventory_data b →
  ppi_index (brand_entry inventory_data revenue_map units_map
               category_revenue overall b) = 0.
Proof.
  unfold brand_entry, inventory_quantity.
  destruct (default _ _) as [c q]; simpl. intros Hq.
  by rewrite decide_False.
Qed.


Lemma compute_metrics_entry inventory_data revenue_map units_map
    category_revenue b r :
  compute_metrics inventory_data revenue_map units_map category_revenue !! b
  = Some r →
  r = brand_entry inventory_data revenue_map units_map category_revenue
        (overall_avg_cost (brand_costs inventory_data)) b.
Proof. rewrite compute_metrics_lookup. case_decide; congruence. Qed.

Lemma inventory_quantity_absent inventory_data b :
  inventory_data !! b = None → inventory_quantity inventory_data b = 0.
Proof. unfold inventory_quantity. by intros ->. Qed.

(** C3: the Metrics Engine makes exactly one record per brand of the
    union of the key sets of the inventory aggregate, the revenue map and
    the units map. A brand with sales and no inventory has an undefined
    average unit cost and a cost index of exactly 0, and with revenue 5000
    and units 50 its sell-through is 1; a brand with inventory only has
    revenue 0 and units 0. *)
Theorem compute_metrics_brand_universe inventory_data revenue_map units_map
    category_revenue :
  dom (compute_metrics inventory_data revenue_map units_map category_revenue)
  = dom inventory_data ∪ dom revenue_map ∪ dom units_map
  ∧ (∀ b r,
       compute_metrics inventory_data revenue_map units_map category_revenue
         !! b = Some r → brand r = b)
  ∧ (∀ b, b ∈ dom revenue_map ∪ dom units_map →
       inventory_data !! b = None →
       ∃ r, compute_metrics inventory_data revenue_map units_map
              category_revenue !! b = Some r
            ∧ avg_unit_cost r = None ∧ ppi_index r = 0)
  ∧ (∀ b, inventory_data !! b = None →
       revenue_map !! b = Some (Qc_of_Z 5000) →
       units_map !! b = Some (Qc_of_Z 50) →
       ∃ r, compute_metrics inventory_data revenue_map units_map
              category_revenue !! b = Some r
            ∧ revenue r = Qc_of_Z 5000 ∧ units r = Qc_of_Z 50
            ∧ sell_through_pct r = 1)
  ∧ (∀ b, b ∈ dom inventory_data →
       revenue_map !! b = None → units_map !! b = None →
       ∃ r, compute_metrics inventory_data revenue_map units_map
              category_revenue !! b = Some r
            ∧ revenue r = 0 ∧ units r = 0).
Proof.
  split; [|split; [|split; [|split]]].
  - apply set_eq. intros b. rewrite elem_of_dom, compute_metrics_lookup.
    case_decide as Hb; rewrite !elem_of_union in Hb; rewrite !elem_of_union.
    + split; [tauto | by eexists].
    + split; [by intros [? ?] | tauto].
  - intros b r ->%compute_metrics_entry. apply brand_entry_brand.
  - intros b Hb Hinv. eexists. split.
    { rewrite compute_metrics_lookup.
      by rewrite decide_True by by apply elem_of_union_l. }
    pose proof (inventory_quantity_absent _ _ Hinv) as Hq. split.
    + rewrite brand_entry_avg_unit_cost, Hq. by rewrite decide_False.
    + apply brand_entry_ppi_no_cost. rewrite Hq. by intros ?.
  - intros b Hinv Hrev Hunits. eexists. split.
    { rewrite compute_metrics_lookup.
      rewrite decide_True; [done|].
      apply elem_of_union_l, elem_of_union_l, elem_of_dom. by eexists. }
    rewrite brand_entry_revenue, brand_entry_units, brand_entry_sell_through.
    unfold units_sold_of.
    rewrite (inventory_quantity_absent _ _ Hinv), Hrev, Hunits.
    split; [done|]. split; [done|].
    rewrite decide_True by by vm_compute. by apply Qc_is_canon.
  - intros b Hb Hrev Hunits. eexists. split.
    { rewrite compute_metrics_lookup.
      by rewrite decide_True by by apply elem_of_union_r. }
    rewrite brand_entry_revenue, brand_entry_units. unfold units_sold_of.
    by rewrite Hrev, Hunits.
Qed.

(** A brand with sales of 5000 for 50 units and no inventory row. *)
Lemma compute_metrics_brand_universe_witness :
  ∃ r, compute_metrics {["Acme" := (Qc_of_Z 1000, Qc_of_Z 100)]}
         {["Solo" := Qc_of_Z 5000]} {["Solo" := Qc_of_Z 50]} ∅ !! "Solo"
       = Some r
       ∧ revenue r = Qc_of_Z 5000 ∧ units r = Qc_of_Z 50
       ∧ sell_through_pct r = 1.
Proof.
  apply (compute_metrics_brand_universe
           {["Acme" := (Qc_of_Z 1000, Qc_of_Z 100)]}
           {["Solo" := Qc_of_Z 5000]} {["Solo" := Qc_of_Z 50]} ∅);
    reflexivity.
Defined.







End Metrics.

(** * Properties of the Document Assembler *)

Section Assembler.

Implicit Types (l : list Qc) (bs : list brand_metric) (b : brand_metric).

Lemma fold_left_Qcplus l (a : Qc) : fold_left Qcplus l a = a + sum_list l.
Proof.
  unfold sum_list. revert a. induction l as [|x l IH]; intros a; simpl.
  - by rewrite Qcplus_0_r.
  - rewrite (IH (a + x)), (IH (0 + x)). ring.
Qed.

Lemma sum_list_nil : sum_list [] = 0.
Proof. reflexivity. Qed.

Lemma sum_list_cons (x : Qc) l : sum_list (x :: l) = x + sum_list l.
Proof.
  unfold sum_list at 1. simpl. rewrite fold_left_Qcplus. ring.
Qed.



Lemma insert_by_revenue_Permutation b bs : insert_by_revenue b bs ≡ₚ b :: bs.
Proof.
  induction bs as [|b' bs IH]; simpl; [done|].
  case_decide; [|done]. rewrite IH. apply perm_swap.
Qed.

Lemma sort_by_revenue_Permutation bs : sort_by_revenue bs ≡ₚ bs.
Proof.
  induction bs as [|b bs IH]; simpl; [done|].
  by rewrite insert_by_revenue_Permutation, IH.
Qed.

Lemma build_json_brands today (brand_data : gmap string brand_metric)
    notes geography currency :
  brands (build_json today brand_data notes geography currency)
  ≡ₚ set_share (sum_list (revenue <$> (map_to_list brand_data).*2))
       <$> (map_to_list brand_data).*2.
Proof. apply sort_by_revenue_Permutation. Qed.




End Assembler.

(** * Properties of the effects *)

Section Effects.

Context {S A : Type}.

Lemma try_pass_returns (body : prog S unit) (s : S) :
  try_pass body s = (Returned tt, (body s).2).
Proof. reflexivity. Qed.

(** A loop whose body always completes is a fold over its list. *)
Lemma for_each_fold (l : list A) (body : A → prog S unit) (step : A → S → S) :
  (∀ x s, body x s = (Returned tt, step x s)) →
  ∀ s, for_each l body s = (Returned tt, fold_left (λ s x, step x s) l s).
Proof.
  intros Hbody. induction l as [|x l IH]; intros s; simpl; [done|].
  unfold bind. by rewrite Hbody, IH.
Qed.

End Effects.

(** * Properties of the Sales Aggregator *)

Section Sales.

Variable to_numeric : string → option Qc.
Variable mapping : gmap string string.

Implicit Types (fs : files) (acc : sales_acc) (x y : sale).
Implicit Types (m : gmap string Qc).





(** The row loop of one frame adds the valid rows in order. *)
Lemma sales_rows_fold (df : frame) acc :
  fold_left (λ acc row, sales_row to_numeric mapping
                          (sales_columns_of df) row acc) (rows df) acc
  = fold_left (add_sale mapping) (valid_sales to_numeric df) acc.
Proof.
  unfold valid_sales. generalize (sales_columns_of df). intros sc.
  revert acc. induction (rows df) as [|row l IH]; intros acc; simpl; [done|].
  rewrite IH. unfold sales_row. by destruct (read_sale to_numeric sc row).
Qed.

(** One turn of the loop over the paths never raises. *)
Lemma sales_path_step fs (sales_path : string) acc :
  (if truthy sales_path && path_exists fs sales_path
   then try_pass (sales_body to_numeric fs mapping sales_path)
   else ret tt) acc
  = (Returned tt,
     fold_left (add_sale mapping) (source_sales to_numeric fs sales_path) acc).
Proof.
  unfold source_sales, path_exists.
  destruct (truthy sales_path); simpl; [|done].
  destruct (fs !! sales_path) as [[df|]|] eqn:Hfs.
  - rewrite bool_decide_eq_true_2 by by eexists.
    rewrite try_pass_returns. unfold sales_body, bind, read_table.
    rewrite Hfs. simpl.
    rewrite (for_each_fold _ _ (sales_row to_numeric mapping (sales_columns_of df)))
      by done.
    simpl. by rewrite sales_rows_fold.
  - rewrite bool_decide_eq_true_2 by by eexists.
    rewrite try_pass_returns. unfold sales_body, bind, read_table.
    by rewrite Hfs.
  - rewrite bool_decide_eq_false_2; [done|]. by intros [? ?].
Qed.

(** The whole aggregation is one fold over the valid rows of all sources,
    in the order of the sources. *)
Lemma load_sales_fold fs (sales_paths : list string) :
  load_sales to_numeric fs sales_paths mapping
  = Returned (fold_left (add_sale mapping)
                (all_sales to_numeric fs sales_paths) (SalesAcc ∅ ∅ ∅)).
Proof.
  unfold load_sales.
  rewrite (for_each_fold _ _
    (λ p acc, fold_left (add_sale mapping) (source_sales to_numeric fs p) acc))
    by apply sales_path_step.
  f_equal. unfold all_sales. generalize (SalesAcc ∅ ∅ ∅).
  induction sales_paths as [|p l IH]; intros acc; simpl; [done|].
  by rewrite fold_left_app, IH.
Qed.

Lemma add_sale_inv acc x : sales_inv acc → sales_inv (add_sale mapping acc x).
Proof.
  intros [Hdom Hsub]. unfold sales_inv, add_sale, bump. simpl. split.
  - rewrite !dom_insert_L. by rewrite Hdom.
  - unfold bump_category. rewrite dom_insert_L.
    destruct (sale_category x);
      [rewrite dom_insert_L; by apply union_mono_l
      | etrans; [exact Hsub | apply union_subseteq_r].. ].
Qed.

Lemma fold_add_sale_inv (l : list sale) acc :
  sales_inv acc → sales_inv (fold_left (add_sale mapping) l acc).
Proof.
  revert acc. induction l as [|x l IH]; intros acc Hacc; simpl; [done|].
  by apply IH, add_sale_inv.
Qed.

(** C9: for every input, the Sales Aggregator returns a revenue map and a
    units map with exactly the same key set, and the key set of the
    category-revenue map is a subset of it. *)
Theorem load_sales_key_sets fs (sales_paths : list string) :
  ∃ acc, load_sales to_numeric fs sales_paths mapping = Returned acc
         ∧ dom (revenue_map acc) = dom (units_map acc)
         ∧ dom (category_revenue acc) ⊆ dom (revenue_map acc).
Proof.
  eexists. split; [apply load_sales_fold|].
  apply fold_add_sale_inv. split; [done|]. simpl. by rewrite !dom_empty_L.
Qed.


End Sales.

Example load_sales_two_sources :
  ∃ acc, load_sales read_decimal sample_files ["q1.xlsx"; "q2.xlsx"] ∅
         = Returned acc
         ∧ revenue_map acc !! "Acme" = Some (Qc_of_Z 300)
         ∧ units_map acc !! "Acme" = Some (Qc_of_Z 30)
         ∧ revenue_map acc !! "Bolt" = None.
Proof.
  eexists. split; [vm_compute; reflexivity|].
  repeat split; vm_compute; f_equal; by apply Qc_is_canon.
Qed.

Example load_sales_returns :
  ∃ acc, load_sales read_decimal sample_files ["returns.xlsx"] ∅
         = Returned acc
         ∧ units_map acc !! "Acme" = Some (Qc_of_Z (-5))
         ∧ revenue_map acc !! "Acme" = Some (Qc_of_Z (-50)).
Proof.
  eexists. split; [vm_compute; reflexivity|].
  repeat split; vm_compute; f_equal; by apply Qc_is_canon.
Qed.


(** * Properties of the Identifier Mapper *)

Section Mapper.

Variable str_of_num : Qc → string.

Implicit Types (fs : files) (mapping : gmap string string).
Implicit Types (needle hay : list ascii).

Lemma contains_chars_spec needle hay :
  contains_chars needle hay = true ↔ substring needle hay.
Proof.
  unfold substring. induction hay as [|c hay IH]; simpl.
  - rewrite orb_false_r, bool_decide_eq_true. split.
    + intros [k Hk]. exists [], k. done.
    + intros (l1 & l2 & H). symmetry in H.
      apply app_eq_nil in H as [-> H]. exists l2. done.
  - rewrite orb_true_iff, bool_decide_eq_true, IH. split.
    + intros [[k Hk]|(l1 & l2 & ->)].
      * exists [], k. done.
      * exists (c :: l1), l2. done.
    + intros (l1 & l2 & H). destruct l1 as [|c' l1].
      * left. exists l2. done.
      * right. injection H as _ ->. by exists l1, l2.
Qed.

Lemma contains_label_like (key col : string) :
  contains key (lower_str col) = true ↔ label_like key col.
Proof. apply contains_chars_spec. Qed.

Lemma first_label_None (key : string) (cols : list string) :
  first_label key cols = None ↔ Forall (λ col, ¬ label_like key col) cols.
Proof.
  unfold first_label. induction cols as [|col cols IH]; simpl.
  - split; [constructor | done].
  - rewrite list.Forall_cons, <-IH, <-contains_label_like.
    destruct (contains key (lower_str col)).
    + split; [done|]. by intros [Hcol _].
    + split; [|by intros [_ ?]]. intros Hfind. split; [|done]. by intros ?.
Qed.

(** The loop over the labels finds the first label of each kind. *)
Lemma pick_columns_first (cols : list string) :
  pick_columns cols = (first_label "vendor" cols, first_label "brand" cols).
Proof.
  unfold pick_columns.
  assert (∀ v b,
    fold_left (λ '(vendor_col, brand_col) col,
                 (pick_column vendor_col "vendor" col,
                  pick_column brand_col "brand" col)) cols (v, b)
    = (match v with Some _ => v | None => first_label "vendor" cols end,
       match b with Some _ => b | None => first_label "brand" cols end))
    as H; [|apply H].
  induction cols as [|col cols IH]; intros v b; simpl.
  { by destruct v, b. }
  rewrite IH. unfold pick_column.
  f_equal.
  - destruct v; simpl; [done|]. by destruct (contains "vendor" _).
  - destruct b; simpl; [done|]. by destruct (contains "brand" _).
Qed.

Lemma mapping_row_entry (v b : string) (row : gmap string pyval) mapping :
  mapping_row str_of_num v b row mapping
  = match mapping_entry str_of_num v b row with
    | Some e => <[e.1 := e.2]> mapping
    | None => mapping
    end.
Proof.
  unfold mapping_row, mapping_entry.
  generalize (strip_str (py_str str_of_num (cell row v))).
  generalize (strip_str (py_str str_of_num (cell row b))).
  intros brand vendor.
  destruct (truthy vendor && truthy brand); cbn [fst snd]; reflexivity.
Qed.

Lemma mapping_rows_fold (v b : string) (rows : list (gmap string pyval))
    mapping :
  fold_left (λ m row, mapping_row str_of_num v b row m) rows mapping
  = fold_left (λ m e, <[e.1 := e.2]> m)
      (mapping_entries str_of_num v b rows) mapping.
Proof.
  unfold mapping_entries. revert mapping.
  induction rows as [|row rows IH]; intros mapping; [reflexivity|].
  cbn [fold_left omap list_omap]. rewrite IH, mapping_row_entry.
  destruct (mapping_entry str_of_num v b row); reflexivity.
Qed.

(** Last write wins. *)
Lemma fold_insert_last (entries : list (string * string)) mapping k :
  fold_left (λ m e, <[e.1 := e.2]> m) entries mapping !! k
  = match list.last (filter (λ e, e.1 = k) entries) with
    | Some e => Some e.2
    | None => mapping !! k
    end.
Proof.
  revert mapping. induction entries as [|e entries IH]; intros mapping.
  { done. }
  cbn [fold_left]. rewrite IH, filter_cons.
  destruct (decide (e.1 = k)) as [He|He].
  - rewrite last_cons. destruct (list.last _); [done|].
    by rewrite <-He, lookup_insert_eq.
  - destruct (list.last _); [done|]. by rewrite lookup_insert_ne.
Qed.

(** What the function returns in each of its cases. *)
Lemma load_vendor_mapping_cases fs (csv_path : option string) :
  load_vendor_mapping str_of_num fs csv_path
  = Returned
      match csv_path with
      | Some p =>
          if truthy p
          then match fs !! p with
               | Some (Some df) =>
                   match first_label "vendor" (columns df),
                         first_label "brand" (columns df) with
                   | Some v, Some b =>
                       fold_left (λ m e, <[e.1 := e.2]> m)
                         (mapping_entries str_of_num v b (rows df)) ∅
                   | _, _ => ∅
                   end
               | _ => ∅
               end
          else ∅
      | None => ∅
      end.
Proof.
  unfold load_vendor_mapping. destruct csv_path as [p|]; [|done].
  destruct (truthy p); simpl; [|done]. unfold path_exists.
  destruct (fs !! p) as [[df|]|] eqn:Hfs.
  - rewrite bool_decide_eq_true_2 by by eexists.
    rewrite try_pass_returns. unfold vendor_mapping_body, bind, read_table.
    rewrite Hfs. simpl. rewrite pick_columns_first.
    destruct (first_label "vendor" (columns df)) as [v|];
      [|destruct (first_label "brand" (columns df)); reflexivity].
    destruct (first_label "brand" (columns df)) as [b|]; [|reflexivity].
    rewrite (for_each_fold _ _ (mapping_row str_of_num v b)) by done.
    simpl. by rewrite mapping_rows_fold.
  - rewrite bool_decide_eq_true_2 by by eexists.
    rewrite try_pass_returns. unfold vendor_mapping_body, bind, read_table.
    by rewrite Hfs.
  - rewrite bool_decide_eq_false_2; [done|]. by intros [? ?].
Qed.

(** C8: the Identifier Mapper never raises. It returns an empty map when
    no path is given, when the file is absent or unreadable, and when no
    label contains "vendor" or none contains "brand" whatever the case;
    otherwise it returns the map of the rows: a key is bound to the
    trimmed brand of the last row that has this normalised vendor, among
    the rows whose trimmed vendor and brand are not blank. *)
Theorem load_vendor_mapping_fails_soft fs (csv_path : option string) :
  ∃ mapping,
    load_vendor_mapping str_of_num fs csv_path = Returned mapping
    ∧ (csv_path = None ∨ csv_path = Some "" → mapping = ∅)
    ∧ (∀ p, csv_path = Some p → fs !! p = None ∨ fs !! p = Some None →
         mapping = ∅)
    ∧ (∀ p df, csv_path = Some p → fs !! p = Some (Some df) →
         Forall (λ col, ¬ label_like "vendor" col) (columns df)
         ∨ Forall (λ col, ¬ label_like "brand" col) (columns df) →
         mapping = ∅)
    ∧ (∀ p df vendor_col brand_col,
         csv_path = Some p → p ≠ "" → fs !! p = Some (Some df) →
         first_label "vendor" (columns df) = Some vendor_col →
         first_label "brand" (columns df) = Some brand_col →
         ∀ k, mapping !! k
              = snd <$> list.last
                  (filter (λ e, e.1 = k)
                     (mapping_entries str_of_num vendor_col brand_col
                        (rows df)))).
Proof.
  eexists. split; [apply load_vendor_mapping_cases|].
  split; [|split; [|split]].
  - by intros [->| ->].
  - intros p -> [Hfs|Hfs]; rewrite Hfs; by destruct (truthy p).
  - intros p df -> Hfs Hcols. rewrite Hfs.
    destruct (truthy p); [|done].
    destruct Hcols as [Hv|Hb].
    + apply first_label_None in Hv. by rewrite Hv.
    + apply first_label_None in Hb. rewrite Hb.
      destruct (first_label "vendor" (columns df)); reflexivity.
  - intros p df v b -> Hp Hfs Hv Hb k. rewrite Hfs, Hv, Hb.
    unfold truthy. rewrite bool_decide_eq_false_2 by done. simpl.
    rewrite fold_insert_last, lookup_empty.
    by destruct (list.last _).
Qed.

End Mapper.

Example load_vendor_mapping_sample :
  load_vendor_mapping print_none sample_files (Some "map.csv")
  = Returned {[ "acme" := "Acme Industries"; "bolt" := "Bolt Labs" ]}.
Proof. vm_compute. reflexivity. Qed.

Example canonical_acme :
  canonical {[ "acme" := "Acme Industries" ]} "Acme Farm LLC"
  = "Acme Industries".
Proof. vm_compute. reflexivity. Qed.

(** The sample table binds ["bolt"] twice; the later row wins. *)
Lemma load_vendor_mapping_fails_soft_witness :
  ∃ mapping,
    load_vendor_mapping print_none sample_files (Some "map.csv")
    = Returned mapping
    ∧ mapping !! "bolt" = Some "Bolt Labs".
Proof.
  destruct (load_vendor_mapping_fails_soft print_none sample_files
              (Some "map.csv")) as (mapping & Hret & _ & _ & _ & Hrows).
  exists mapping. split; [exact Hret|].
  rewrite (Hrows "map.csv" vendor_map "Vendor Name" "Canonical Brand");
    [vm_compute; reflexivity | reflexivity | discriminate
    | reflexivity | reflexivity | reflexivity].
Defined.

(** * The whole pipeline on the samples *)

(** Ten units received and five returned by customers, no other sale: the
    sell-through is -1. *)
Example pipeline_sell_through_negative :
  ∃ inventory_data acc r,
    load_inventory read_decimal sample_files "received.xlsx" ∅
    = Returned inventory_data
    ∧ load_sales read_decimal sample_files ["returns.xlsx"] ∅ = Returned acc
    ∧ compute_metrics inventory_data (revenue_map acc) (units_map acc)
        (category_revenue acc) !! "Acme" = Some r
    ∧ sell_through_pct r = Qc_of_Z (-1).
Proof.
  do 3 eexists. split; [vm_compute; reflexivity|].
  split; [vm_compute; reflexivity|].
  split; [vm_compute; reflexivity|]. by apply Qc_is_canon.
Qed.

(** An inventory total of -5 units: no average unit cost. *)
Example pipeline_negative_quantity :
  ∃ inventory_data r,
    load_inventory read_decimal sample_files "sent_back.xlsx" ∅
    = Returned inventory_data
    ∧ inventory_quantity inventory_data "Acme" = Qc_of_Z (-5)
    ∧ compute_metrics inventory_data ∅ ∅ ∅ !! "Acme" = Some r
    ∧ avg_unit_cost r = None.
Proof.
  do 2 eexists. split; [vm_compute; reflexivity|].
  split; [by apply Qc_is_canon|].
  split; [vm_compute; reflexivity|]. reflexivity.
Qed.

(** Two quarters of sales and the inventory, up to the document. *)
Example pipeline_document :
  ∃ inventory_data acc,
    load_inventory read_decimal sample_files "received.xlsx" ∅
    = Returned inventory_data
    ∧ load_sales read_decimal sample_files ["q1.xlsx"; "q2.xlsx"] ∅
      = Returned acc
    ∧ (λ b, (brand b, this <$> revenue_share b, this <$> avg_unit_cost b,
             this (sell_through_pct b), this (ppi_index b)))
        <$> brands (build_json "2025-09-13"
                      (compute_metrics inventory_data (revenue_map acc)
                         (units_map acc) (category_revenue acc))
                      "" "NY" "USD")
      = [("Acme", Some 1%Q, Some 10%Q, (3 # 4)%Q, 100%Q)].
Proof.
  do 2 eexists. split; [vm_compute; reflexivity|].
  split; [vm_compute; reflexivity|]. vm_compute. reflexivity.
Qed.

(** * Further properties of the Name Normalizer *)

Section NormalizerMore.

Implicit Types (s name : list ascii) (c : ascii).

Lemma lower_char_idemp c : lower_char (lower_char c) = lower_char c.
Proof. apply lower_char_id, isupper_lower_char. Qed.

Lemma lower_idemp s : lower (lower s) = lower s.
Proof.
  unfold lower. induction s as [|c s IH]; [done|].
  cbn [map]. by rewrite lower_char_idemp, IH.
Qed.


Lemma remove_seps_cons c s :
  remove_seps (c :: s)
  = if is_sep c then remove_seps s else c :: remove_seps s.
Proof.
  unfold remove_seps. rewrite filter_cons.
  destruct (is_sep c); by case_decide.
Qed.

Lemma remove_seps_app s1 s2 :
  remove_seps (s1 ++ s2) = remove_seps s1 ++ remove_seps s2.
Proof. apply list.filter_app. Qed.

Lemma remove_seps_rev s : remove_seps (rev s) = rev (remove_seps s).
Proof.
  induction s as [|c s IH]; [done|].
  cbn [rev]. rewrite remove_seps_app, IH, !remove_seps_cons.
  destruct (is_sep c); cbn [rev]; [by rewrite app_nil_r | done].
Qed.

Lemma remove_seps_lstrip s : remove_seps (lstrip s) = remove_seps s.
Proof.
  induction s as [|c s IH]; [done|]. cbn [lstrip].
  destruct (isspace c) eqn:Hc; [|done].
  rewrite IH, remove_seps_cons. unfold is_sep. by rewrite Hc.
Qed.

Lemma remove_seps_strip s : remove_seps (strip s) = remove_seps s.
Proof.
  unfold strip, rstrip.
  by rewrite remove_seps_rev, remove_seps_lstrip, remove_seps_rev,
    rev_involutive, remove_seps_lstrip.
Qed.

(** The [strip] before the [re.sub] changes nothing. *)
Lemma clean_alt s : clean s = remove_seps (lower s).
Proof. apply remove_seps_strip. Qed.

Lemma normalize_chars_same_clean s1 s2 :
  clean s1 = clean s2 → normalize_chars s1 = normalize_chars s2.
Proof. unfold normalize_chars. by intros ->. Qed.


(** X1: a name and its lower-case form have the same key. *)
Theorem normalize_name_ignores_case (s : string) :
  normalize_name (PyStr (lower_str s)) = normalize_name (PyStr s).
Proof.
  unfold normalize_name, lower_str. rewrite chars_text. f_equal.
  apply normalize_chars_same_clean. by rewrite !clean_alt, lower_idemp.
Qed.




(** X4: normalising a key again can only cut its end: the second key is a
    prefix of the first, for every input, textual or not. *)
Theorem normalize_name_again_prefix (x : pyval) :
  chars (normalize_name (PyStr (normalize_name x)))
  `prefix_of` chars (normalize_name x).
Proof.
  assert (∃ k, normalize_name x = text k ∧ Forall key_char k) as (k & -> & Hk).
  { destruct x; unfold normalize_name; try (by exists []).
    eexists. split; [done|]. apply normalize_chars_key_chars. }
  unfold normalize_name. rewrite !chars_text.
  pose proof (normalize_chars_prefix k) as Hp. by rewrite clean_id in Hp.
Qed.

End NormalizerMore.

(** * Sums behind the accumulators *)

Section Accumulate.

Context {St A : Type}.

(** An observed total that a step either leaves alone or creates and
    raises by the value of the row. *)
Lemma fold_observe_option (obs : St → option Qc) (step : St → A → St)
    (P : A → Prop) `{!∀ x, Decision (P x)} (val : A → Qc) :
  (∀ s x, obs (step s x)
          = if decide (P x) then Some (default 0 (obs s) + val x) else obs s) →
  ∀ (l : list A) (s : St),
    obs (fold_left step l s)
    = if decide (filter P l = []) then obs s
      else Some (default 0 (obs s) + sum_list (val <$> filter P l)).
Proof.
  intros Hstep l. induction l as [|x l IH]; intros s; [done|].
  cbn [fold_left]. rewrite IH, Hstep, filter_cons.
  destruct (decide (P x)) as [Hx|Hx]; [|done].
  rewrite (decide_False (P := _ :: _ = [])) by done.
  rewrite fmap_cons, sum_list_cons. cbn [default from_option id].
  case_decide as Hnil.
  - rewrite Hnil, fmap_nil, sum_list_nil. f_equal. ring.
  - f_equal. ring.
Qed.


End Accumulate.




(** The labels are looked up by their lower-case form; of two labels with
    the same lower-case form the later one is kept. *)
Lemma lower_index_lookup (cols : list string) (k : string) :
  lower_index cols !! k = list.last (filter (λ c, lower_str c = k) cols).
Proof.
  unfold lower_index.
  assert (∀ m : gmap string string,
    fold_left (λ m c, <[lower_str c := c]> m) cols m !! k
    = match list.last (filter (λ c, lower_str c = k) cols) with
      | Some c => Some c
      | None => m !! k
      end) as H.
  { induction cols as [|c cols IH]; intros m; [done|].
    cbn [fold_left]. rewrite IH, filter_cons.
    destruct (decide (lower_str c = k)) as [Hc|Hc].
    - rewrite last_cons. destruct (list.last _); [done|].
      by rewrite <-Hc, lookup_insert_eq.
    - destruct (list.last _); [done|]. by rewrite lookup_insert_ne. }
  rewrite H, lookup_empty. by destruct (list.last _).
Qed.

Lemma lower_index_None (cols : list string) (k : string) :
  Forall (λ c, lower_str c ≠ k) cols → lower_index cols !! k = None.
Proof.
  intros Hno. rewrite lower_index_lookup.
  replace (filter (λ c, lower_str c = k) cols) with (@nil string); [done|].
  symmetry. induction Hno as [|c cols Hc _ IH]; [done|].
  by rewrite filter_cons_False.
Qed.

Lemma lower_index_Some (cols : list string) (k c : string) :
  lower_index cols !! k = Some c → c ∈ cols ∧ lower_str c = k.
Proof.
  rewrite lower_index_lookup. intros (l & Hl)%last_Some.
  assert (c ∈ filter (λ c, lower_str c = k) cols) as Hin.
  { rewrite Hl. apply elem_of_app. right. by left. }
  apply list_elem_of_filter in Hin. tauto.
Qed.

(** * Properties of the Inventory Aggregator *)

Section Inventory.

Variable to_numeric : string → option Qc.
Variable mapping : gmap string string.

Implicit Types (fs : files) (inv : gmap string (Qc * Qc)) (x : purchase).

Lemma inventory_rows_fold (v q c : option string)
    (rows : list (gmap string pyval)) inv :
  fold_left (λ inv row, inventory_row to_numeric mapping v q c row inv) rows inv
  = fold_left (add_purchase mapping)
      (omap (read_purchase to_numeric v q c) rows) inv.
Proof.
  revert inv. induction rows as [|row rows IH]; intros inv; [done|].
  cbn [fold_left omap list_omap]. rewrite IH.
  unfold inventory_row, read_purchase.
  destruct (row_get row v); try done.
  destruct (row_get_numeric to_numeric row q); try done.
  destruct (row_get_numeric to_numeric row c); done.
Qed.

(** The whole aggregation is one fold over the valid rows. *)
Lemma load_inventory_fold fs (inventory_path : string) :
  load_inventory to_numeric fs inventory_path mapping
  = Returned (fold_left (add_purchase mapping)
                (source_purchases to_numeric fs inventory_path) ∅).
Proof.
  unfold load_inventory, source_purchases, path_exists.
  destruct (truthy inventory_path); simpl; [|done].
  destruct (fs !! inventory_path) as [[df|]|] eqn:Hfs.
  - rewrite bool_decide_eq_true_2 by by eexists.
    rewrite try_pass_returns. unfold inventory_body, bind, read_table.
    rewrite Hfs. simpl. unfold valid_purchases, inventory_columns.
    destruct (py_or (lower_index (columns df) !! "vendor name") _) as [v|];
      [|done].
    destruct (py_or (py_or (lower_index (columns df) !! "quantity") _) _)
      as [q|]; [|done].
    destruct (py_or (py_or (lower_index (columns df) !! "inventory cost") _) _)
      as [c|]; [|done].
    rewrite (for_each_fold _ _
      (inventory_row to_numeric mapping (Some v) (Some q) (Some c))) by done.
    simpl. by rewrite inventory_rows_fold.
  - rewrite bool_decide_eq_true_2 by by eexists.
    rewrite try_pass_returns. unfold inventory_body, bind, read_table.
    by rewrite Hfs.
  - rewrite bool_decide_eq_false_2; [done|]. by intros [? ?].
Qed.

Lemma valid_purchases_no_column (df : frame) :
  Forall (λ c, lower_str c ≠ "vendor name" ∧ lower_str c ≠ "vendor")
         (columns df)
  ∨ Forall (λ c, lower_str c ≠ "quantity" ∧ lower_str c ≠ "qty"
                 ∧ lower_str c ≠ "quantity received") (columns df)
  ∨ Forall (λ c, lower_str c ≠ "inventory cost" ∧ lower_str c ≠ "cost"
                 ∧ lower_str c ≠ "inventory cost ($)") (columns df) →
  valid_purchases to_numeric df = [].
Proof.
  unfold valid_purchases, inventory_columns.
  intros [H|[H|H]].
  - rewrite (lower_index_None _ "vendor name"), (lower_index_None _ "vendor");
      [done | eapply Forall_impl; [|exact H]; intros ? Hc; cbv beta in Hc; tauto..].
  - rewrite (lower_index_None _ "quantity"), (lower_index_None _ "qty"),
      (lower_index_None _ "quantity received");
      [|eapply Forall_impl; [|exact H]; intros ? Hc; cbv beta in Hc; tauto..].
    simpl. by destruct (py_or _ _).
  - rewrite (lower_index_None _ "inventory cost"), (lower_index_None _ "cost"),
      (lower_index_None _ "inventory cost ($)");
      [|eapply Forall_impl; [|exact H]; intros ? Hc; cbv beta in Hc; tauto..].
    simpl. destruct (py_or _ _); [|done]. by destruct (py_or _ _).
Qed.

(** X5: the Inventory Aggregator never raises, and it returns an empty
    aggregate when the path is empty, when the file is missing or cannot
    be read, and when the frame has no label that reads, in lower case,
    as one of the accepted names of the vendor, of the quantity or of the
    cost. *)
Theorem load_inventory_fails_soft fs (inventory_path : string) :
  ∃ inv,
    load_inventory to_numeric fs inventory_path mapping = Returned inv
    ∧ (inventory_path = "" ∨ fs !! inventory_path = None
       ∨ fs !! inventory_path = Some None → inv = ∅)
    ∧ (∀ df, fs !! inventory_path = Some (Some df) →
         Forall (λ c, lower_str c ≠ "vendor name" ∧ lower_str c ≠ "vendor")
                (columns df)
         ∨ Forall (λ c, lower_str c ≠ "quantity" ∧ lower_str c ≠ "qty"
                        ∧ lower_str c ≠ "quantity received") (columns df)
         ∨ Forall (λ c, lower_str c ≠ "inventory cost" ∧ lower_str c ≠ "cost"
                        ∧ lower_str c ≠ "inventory cost ($)") (columns df) →
         inv = ∅).
Proof.
  eexists. split; [apply load_inventory_fold|].
  unfold source_purchases. split.
  - intros [->|[Hfs|Hfs]]; [done|rewrite Hfs..];
      by destruct (truthy inventory_path).
  - intros df Hfs Hcols. rewrite Hfs, valid_purchases_no_column by done.
    by destruct (truthy inventory_path).
Qed.

Lemma add_purchase_cost inv x b :
  fst <$> (add_purchase mapping inv x !! b)
  = if decide (canonical mapping (purchase_vendor x) = b)
    then Some (default 0 (fst <$> inv !! b) + purchase_cost x)
    else fst <$> inv !! b.
Proof.
  unfold add_purchase, add_inventory.
  case_decide as Hb.
  - rewrite Hb. destruct (inv !! b) as [[tc tq]|]; simpl;
      by rewrite lookup_insert_eq.
  - destruct (default _ _) as [tc tq]. by rewrite lookup_insert_ne.
Qed.

Lemma add_purchase_qty inv x b :
  snd <$> (add_purchase mapping inv x !! b)
  = if decide (canonical mapping (purchase_vendor x) = b)
    then Some (default 0 (snd <$> inv !! b) + purchase_qty x)
    else snd <$> inv !! b.
Proof.
  unfold add_purchase, add_inventory.
  case_decide as Hb.
  - rewrite Hb. destruct (inv !! b) as [[tc tq]|]; simpl;
      by rewrite lookup_insert_eq.
  - destruct (default _ _) as [tc tq]. by rewrite lookup_insert_ne.
Qed.

Lemma fold_add_purchase_lookup (l : list purchase) b :
  fold_left (add_purchase mapping) l ∅ !! b
  = if decide (purchases_of mapping b l = []) then None
    else Some (sum_list (purchase_cost <$> purchases_of mapping b l),
               sum_list (purchase_qty <$> purchases_of mapping b l)).
Proof.
  pose proof (fold_observe_option (λ inv, fst <$> inv !! b)
    (add_purchase mapping) (λ x, canonical mapping (purchase_vendor x) = b)
    purchase_cost (λ inv x, add_purchase_cost inv x b) l ∅) as Hc.
  pose proof (fold_observe_option (λ inv, snd <$> inv !! b)
    (add_purchase mapping) (λ x, canonical mapping (purchase_vendor x) = b)
    purchase_qty (λ inv x, add_purchase_qty inv x b) l ∅) as Hq.
  cbv beta in Hc, Hq. rewrite lookup_empty in Hc, Hq.
  fold (purchases_of mapping b l) in Hc, Hq.
  destruct (decide (purchases_of mapping b l = [])).
  - by destruct (fold_left _ _ _ !! b).
  - destruct (fold_left _ _ _ !! b) as [[tc tq]|]; [|done].
    simpl in Hc, Hq. injection Hc as ->. injection Hq as ->.
    rewrite !Qcplus_0_l. done.
Qed.

(** X6: in the aggregate, a brand has an entry exactly when some valid
    row resolves to it, and its entry holds the sum of the costs and the
    sum of the quantities of these rows. *)
Theorem load_inventory_totals fs (inventory_path : string) :
  ∃ inv,
    load_inventory to_numeric fs inventory_path mapping = Returned inv
    ∧ ∀ b,
        inv !! b
        = if decide (purchases_of mapping b
                       (source_purchases to_numeric fs inventory_path) = [])
          then None
          else Some
                 (sum_list (purchase_cost
                    <$> purchases_of mapping b
                          (source_purchases to_numeric fs inventory_path)),
                  sum_list (purchase_qty
                    <$> purchases_of mapping b
                          (source_purchases to_numeric fs inventory_path))).
Proof.
  eexists. split; [apply load_inventory_fold|].
  intros b. apply fold_add_purchase_lookup.
Qed.


End Inventory.

(** A file the reader rejects, and a sales sheet, which has no vendor
    label, given as the inventory. *)
Lemma load_inventory_fails_soft_witness :
  load_inventory read_decimal sample_files "broken.xlsx" ∅ = Returned ∅
  ∧ load_inventory read_decimal sample_files "q1.xlsx" ∅ = Returned ∅.
Proof.
  split.
  - destruct (load_inventory_fails_soft read_decimal ∅ sample_files
                "broken.xlsx") as (inv & Hret & Hnone & _).
    rewrite Hret. f_equal. apply Hnone. right. right. reflexivity.
  - destruct (load_inventory_fails_soft read_decimal ∅ sample_files
                "q1.xlsx") as (inv & Hret & _ & Hcols).
    rewrite Hret. f_equal. apply (Hcols sales_q1); [reflexivity|].
    left. repeat constructor; discriminate.
Defined.

(** * Sums over dictionaries *)






Lemma bump_lookup (k : string) (v : Qc) (m : gmap string Qc) (b : string) :
  bump k v m !! b
  = if decide (k = b) then Some (default 0 (m !! b) + v) else m !! b.
Proof.
  unfold bump. case_decide as Hb.
  - rewrite Hb. apply lookup_insert_eq.
  - by apply lookup_insert_ne.
Qed.

Lemma filter_filter_and {A} (P Q : A → Prop) `{!∀ a, Decision (P a)}
    `{!∀ a, Decision (Q a)} (l : list A) :
  filter P (filter Q l) = filter (λ a, P a ∧ Q a) l.
Proof.
  induction l as [|a l IH]; [done|].
  rewrite (filter_cons Q), (filter_cons (λ a, P a ∧ Q a)).
  destruct (decide (Q a)) as [HQ|HQ].
  - rewrite filter_cons. destruct (decide (P a)) as [HP|HP].
    + rewrite decide_True by done. by rewrite IH.
    + rewrite decide_False by (by intros [? _]). done.
  - rewrite decide_False by (by intros [_ ?]). done.
Qed.

(** * Further properties of the Sales Aggregator *)

Section SalesMore.

Variable to_numeric : string → option Qc.
Variable mapping : gmap string string.

Implicit Types (fs : files) (acc : sales_acc) (x : sale) (b c : string).

Lemma fold_add_sale_revenue (l : list sale) b :
  revenue_map (fold_left (add_sale mapping) l (SalesAcc ∅ ∅ ∅)) !! b
  = if decide (sales_of mapping b l = []) then None
    else Some (sum_list (sale_revenue <$> sales_of mapping b l)).
Proof.
  rewrite (fold_observe_option (λ acc, revenue_map acc !! b)
    (add_sale mapping) (λ x, canonical mapping (sale_brand x) = b)
    sale_revenue).
  - fold (sales_of mapping b l). case_decide; [done|].
    simpl. by rewrite lookup_empty, Qcplus_0_l.
  - intros acc x. apply bump_lookup.
Qed.

Lemma fold_add_sale_units (l : list sale) b :
  units_map (fold_left (add_sale mapping) l (SalesAcc ∅ ∅ ∅)) !! b
  = if decide (sales_of mapping b l = []) then None
    else Some (sum_list (sale_qty <$> sales_of mapping b l)).
Proof.
  rewrite (fold_observe_option (λ acc, units_map acc !! b)
    (add_sale mapping) (λ x, canonical mapping (sale_brand x) = b)
    sale_qty).
  - fold (sales_of mapping b l). case_decide; [done|].
    simpl. by rewrite lookup_empty, Qcplus_0_l.
  - intros acc x. apply bump_lookup.
Qed.

(** X7: in the revenue map and in the units map a brand has an entry
    exactly when some valid row of some readable source resolves to it,
    and the entries are the sum of the revenues and the sum of the
    quantities of these rows. *)
Theorem load_sales_totals fs (sales_paths : list string) :
  ∃ acc,
    load_sales to_numeric fs sales_paths mapping = Returned acc
    ∧ ∀ b,
        revenue_map acc !! b
        = (if decide (sales_of mapping b
                        (all_sales to_numeric fs sales_paths) = [])
           then None
           else Some (sum_list (sale_revenue
                        <$> sales_of mapping b
                              (all_sales to_numeric fs sales_paths))))
        ∧ units_map acc !! b
          = (if decide (sales_of mapping b
                          (all_sales to_numeric fs sales_paths) = [])
             then None
             else Some (sum_list (sale_qty
                          <$> sales_of mapping b
                                (all_sales to_numeric fs sales_paths)))).
Proof.
  eexists. split; [apply load_sales_fold|].
  intros b. split; [apply fold_add_sale_revenue | apply fold_add_sale_units].
Qed.

Lemma bump_category_lookup (k : string) (cat : pyval) (v : Qc)
    (M : gmap string (gmap string Qc)) b c :
  bump_category k cat v M !! b ≫= (.!! c)
  = if decide (cat = PyStr c ∧ k = b)
    then Some (default 0 (M !! b ≫= (.!! c)) + v)
    else M !! b ≫= (.!! c).
Proof.
  unfold bump_category. destruct cat as [c'| | |];
    try (rewrite decide_False; [done|by intros [? _]]).
  destruct (decide (k = b)) as [->|Hb].
  - rewrite lookup_insert_eq. simpl. rewrite bump_lookup.
    destruct (decide (c' = c)) as [->|Hc].
    + rewrite decide_True by done. by destruct (M !! b).
    + rewrite decide_False by (intros [[=] _]; done). by destruct (M !! b).
  - rewrite lookup_insert_ne by done.
    rewrite decide_False; [done|]. by intros [_ ?].
Qed.

Lemma fold_add_sale_category (l : list sale) b c :
  category_revenue (fold_left (add_sale mapping) l (SalesAcc ∅ ∅ ∅)) !! b
    ≫= (.!! c)
  = if decide (in_category c (sales_of mapping b l) = []) then None
    else Some (sum_list (sale_revenue <$> in_category c (sales_of mapping b l))).
Proof.
  unfold in_category, sales_of. rewrite filter_filter_and.
  rewrite (fold_observe_option (λ acc, category_revenue acc !! b ≫= (.!! c))
    (add_sale mapping)
    (λ x, sale_category x = PyStr c ∧ canonical mapping (sale_brand x) = b)
    sale_revenue).
  - case_decide; [done|]. simpl. by rewrite lookup_empty, Qcplus_0_l.
  - intros acc x. apply bump_category_lookup.
Qed.



(** X8: the category revenue of a brand is, per category, the sum of the
    revenue of the valid rows of that brand and category, with no entry
    for a category without such a row. *)
Theorem load_sales_category_totals fs (sales_paths : list string) :
  ∃ acc,
    load_sales to_numeric fs sales_paths mapping = Returned acc
    ∧ ∀ b c,
        category_revenue acc !! b ≫= (.!! c)
        = if decide (in_category c
                       (sales_of mapping b
                          (all_sales to_numeric fs sales_paths)) = [])
          then None
          else Some (sum_list (sale_revenue
                       <$> in_category c
                             (sales_of mapping b
                                (all_sales to_numeric fs sales_paths)))).
Proof.
  eexists. split; [apply load_sales_fold|].
  intros b c. apply fold_add_sale_category.
Qed.


Lemma omap_all_None {A B} (f : A → option B) (l : list A) :
  (∀ a, f a = None) → omap f l = [].
Proof.
  intros Hf. induction l as [|a l IH]; [done|].
  cbn [omap list_omap]. by rewrite Hf.
Qed.

Lemma valid_sales_no_column (df : frame) :
  Forall (λ c, lower_str c ≠ "brand name" ∧ lower_str c ≠ "brand")
         (columns df)
  ∨ Forall (λ c, lower_str c ≠ "quantity sold" ∧ lower_str c ≠ "units sold"
                 ∧ lower_str c ≠ "quantity") (columns df)
  ∨ Forall (λ c, lower_str c ≠ "net sales" ∧ lower_str c ≠ "revenue")
           (columns df) →
  valid_sales to_numeric df = [].
Proof.
  intros Hcols. unfold valid_sales. apply omap_all_None. intros row.
  unfold read_sale, sales_columns_of. cbn [brand_col qty_col revenue_col].
  destruct Hcols as [H|[H|H]].
  - rewrite (lower_index_None _ "brand name"), (lower_index_None _ "brand");
      [done | eapply Forall_impl; [|exact H]; intros ? Hc; cbv beta in Hc; tauto..].
  - rewrite (lower_index_None _ "quantity sold"),
      (lower_index_None _ "units sold"), (lower_index_None _ "quantity");
      [|eapply Forall_impl; [|exact H]; intros ? Hc; cbv beta in Hc; tauto..].
    cbn [py_or row_get_numeric]. by destruct (row_get row _).
  - rewrite (lower_index_None _ "net sales"), (lower_index_None _ "revenue");
      [|eapply Forall_impl; [|exact H]; intros ? Hc; cbv beta in Hc; tauto..].
    cbn [py_or row_get_numeric]. destruct (row_get row _); try done.
    by destruct (row_get_numeric to_numeric row _).
Qed.

(** X10: a source that is skipped changes nothing for the others: an empty
    path, a missing file, a file the reader rejects, or a frame without a
    label for the brand, for the quantity or for the revenue can be taken
    out of the list of sources, wherever it stands, without changing the
    result. *)
Theorem load_sales_skips_source fs (before : list string) (p : string)
    (after : list string) :
  p = "" ∨ fs !! p = None ∨ fs !! p = Some None
  ∨ (∃ df, fs !! p = Some (Some df)
           ∧ (Forall (λ c, lower_str c ≠ "brand name" ∧ lower_str c ≠ "brand")
                     (columns df)
              ∨ Forall (λ c, lower_str c ≠ "quantity sold"
                             ∧ lower_str c ≠ "units sold"
                             ∧ lower_str c ≠ "quantity") (columns df)
              ∨ Forall (λ c, lower_str c ≠ "net sales"
                             ∧ lower_str c ≠ "revenue") (columns df))) →
  load_sales to_numeric fs (before ++ p :: after) mapping
  = load_sales to_numeric fs (before ++ after) mapping.
Proof.
  intros Hp. rewrite !load_sales_fold. do 2 f_equal.
  unfold all_sales. rewrite !fmap_app, fmap_cons, !concat_app, concat_cons.
  assert (source_sales to_numeric fs p = []) as ->; [|done].
  unfold source_sales.
  destruct Hp as [->|[Hfs|[Hfs|(df & Hfs & Hcols)]]]; [done|rewrite Hfs..].
  - by destruct (truthy p).
  - by destruct (truthy p).
  - rewrite valid_sales_no_column by done. by destruct (truthy p).
Qed.

End SalesMore.


(** The rejected file between the two quarters, and the inventory sheet,
    which has no brand label, given as a sales source. *)
Lemma load_sales_skips_source_witness :
  load_sales read_decimal sample_files ["q1.xlsx"; "broken.xlsx"; "q2.xlsx"] ∅
  = load_sales read_decimal sample_files ["q1.xlsx"; "q2.xlsx"] ∅
  ∧ load_sales read_decimal sample_files ["received.xlsx"; "q2.xlsx"] ∅
    = load_sales read_decimal sample_files ["q2.xlsx"] ∅.
Proof.
  split.
  - apply (load_sales_skips_source read_decimal ∅ sample_files
             ["q1.xlsx"] "broken.xlsx" ["q2.xlsx"]).
    right. right. left. reflexivity.
  - apply (load_sales_skips_source read_decimal ∅ sample_files
             [] "received.xlsx" ["q2.xlsx"]).
    right. right. right. exists inventory_received. split; [reflexivity|].
    left. repeat constructor; discriminate.
Defined.

(** * Further properties of the Metrics Engine *)






Lemma list_to_map_keyed_lookup {V} (f : string → V) (l : list string)
    (b : string) :
  (list_to_map ((λ k, (k, f k)) <$> l) : gmap string V) !! b
  = if decide (b ∈ l) then Some (f b) else None.
Proof.
  induction l as [|k l IH].
  { by rewrite decide_False by apply not_elem_of_nil. }
  rewrite fmap_cons. cbn [list_to_map foldr]. cbn [fst snd].
  destruct (decide (k = b)) as [->|Hne].
  - rewrite lookup_insert_eq. by rewrite decide_True by by left.
  - rewrite lookup_insert_ne, IH by done.
    apply decide_ext. rewrite elem_of_cons. split; [by right|].
    by intros [->|?].
Qed.

(** The records in the order of [brand_data.values()], up to that order. *)
Lemma compute_metrics_values (inventory_data : gmap string (Qc * Qc))
    (revenue_map units_map : gmap string Qc)
    (category_revenue : gmap string (gmap string Qc)) :
  (map_to_list (compute_metrics inventory_data revenue_map units_map
                  category_revenue)).*2
  ≡ₚ brand_entry inventory_data revenue_map units_map category_revenue
       (overall_avg_cost (brand_costs inventory_data))
     <$> elements (dom revenue_map ∪ dom units_map ∪ dom inventory_data).
Proof.
  set (f := brand_entry inventory_data revenue_map units_map category_revenue
              (overall_avg_cost (brand_costs inventory_data))).
  set (X := dom revenue_map ∪ dom units_map ∪ dom inventory_data).
  assert (compute_metrics inventory_data revenue_map units_map category_revenue
          = list_to_map ((λ k, (k, f k)) <$> elements X)) as ->.
  { apply map_eq. intros b.
    rewrite compute_metrics_lookup, list_to_map_keyed_lookup.
    apply decide_ext. by rewrite elem_of_elements. }
  rewrite map_to_list_to_map.
  - by rewrite <-list_fmap_compose.
  - rewrite <-list_fmap_compose. rewrite (list_fmap_ext _ id) by done.
    rewrite list_fmap_id. apply NoDup_elements.
Qed.

Section MetricsMore.

Implicit Types (inventory_data : gmap string (Qc * Qc)).
Implicit Types (revenue_map units_map : gmap string Qc).
Implicit Types (category_revenue : gmap string (gmap string Qc)).
Implicit Types (b : string) (r : brand_metric).







End MetricsMore.



(** * Further properties of the Document Assembler *)

Section AssemblerMore.

Implicit Types (bs : list brand_metric) (b : brand_metric).










End AssemblerMore.


(** * Further properties of the Identifier Mapper *)

Section MapperMore.

Variable str_of_num : Qc → string.

Implicit Types (s t : list ascii) (c : ascii).
Implicit Types (fs : files) (mapping : gmap string string).










Lemma find_first {A} (f : A → bool) (l : list A) :
  match List.find f l with
  | Some a => ∃ l1 l2, l = l1 ++ a :: l2 ∧ f a = true
                       ∧ Forall (λ a', f a' = false) l1
  | None => Forall (λ a', f a' = false) l
  end.
Proof.
  induction l as [|a l IH]; cbn [List.find]; [constructor|].
  destruct (f a) eqn:Ha.
  - exists [], l. by repeat split.
  - destruct (List.find f l) as [a'|].
    + destruct IH as (l1 & l2 & -> & Ha' & Hl1).
      exists (a :: l1), l2. repeat split; [done|by constructor].
    + by constructor.
Qed.

Lemma first_label_spec (key : string) (cols : list string) :
  match first_label key cols with
  | Some col => ∃ l1 l2, cols = l1 ++ col :: l2 ∧ label_like key col
                         ∧ Forall (λ col', ¬ label_like key col') l1
  | None => Forall (λ col', ¬ label_like key col') cols
  end.
Proof.
  unfold first_label.
  pose proof (find_first (λ col, contains key (lower_str col)) cols) as H.
  assert (∀ l, Forall (λ col', contains key (lower_str col') = false) l →
               Forall (λ col', ¬ label_like key col') l) as Hno.
  { intros l Hl. eapply Forall_impl; [|exact Hl]. intros col' Hc Hlike.
    apply contains_label_like in Hlike. cbv beta in Hc. congruence. }
  destruct (List.find _ cols) as [col|].
  - destruct H as (l1 & l2 & -> & Hc & Hl1). exists l1, l2.
    split; [done|]. split; [by apply contains_label_like | by apply Hno].
  - by apply Hno.
Qed.

(** X18: the loop over the labels of the table takes, for the vendor and
    for the brand alike, the first label that contains the word in any
    mix of cases, and none when no label does; the two may be the same
    label. *)
Theorem pick_columns_spec (cols : list string) :
  match (pick_columns cols).1 with
  | Some col => ∃ l1 l2, cols = l1 ++ col :: l2 ∧ label_like "vendor" col
                         ∧ Forall (λ col', ¬ label_like "vendor" col') l1
  | None => Forall (λ col', ¬ label_like "vendor" col') cols
  end
  ∧ match (pick_columns cols).2 with
    | Some col => ∃ l1 l2, cols = l1 ++ col :: l2 ∧ label_like "brand" col
                           ∧ Forall (λ col', ¬ label_like "brand" col') l1
    | None => Forall (λ col', ¬ label_like "brand" col') cols
    end.
Proof.
  rewrite pick_columns_first. split; apply first_label_spec.
Qed.

End MapperMore.


(** * Properties of the command *)

Section Command.

Variable to_numeric : string → option Qc.
Variable str_of_num : Qc → string.
Variable fs : files.
Variable can_write : string → bool.
Variable today : string.

Implicit Types (a : args) (mapping : gmap string string).

Local Abbreviation purchases a :=
  (source_purchases to_numeric fs (arg_inventory a)).
Local Abbreviation sales a := (all_sales to_numeric fs (arg_sales a)).
Local Abbreviation inventory_of a mapping :=
  (run_inventory to_numeric fs a mapping).
Local Abbreviation sales_acc_of a mapping :=
  (run_sales to_numeric fs a mapping).
Local Abbreviation brand_data_of a mapping :=
  (run_brand_data to_numeric fs a mapping).

Lemma main_run a :
  ∃ mapping,
    load_vendor_mapping str_of_num fs (arg_vendor_map a) = Returned mapping
    ∧ main to_numeric str_of_num fs can_write today a
      = if can_write (arg_output a)
        then Returned
               (build_json today (brand_data_of a mapping) (arg_notes a)
                  (arg_geography a) (arg_currency a),
                size (brand_data_of a mapping))
        else Raised.
Proof.
  unfold main. rewrite load_vendor_mapping_cases.
  eexists. split; [reflexivity|]. cbn [and_then].
  by rewrite load_inventory_fold, load_sales_fold.
Qed.



Lemma brand_names_of_values (inventory_data : gmap string (Qc * Qc))
    (revenue_map units_map : gmap string Qc)
    (category_revenue : gmap string (gmap string Qc))
    (notes geography currency : string) :
  brand <$> brands (build_json today
                      (compute_metrics inventory_data revenue_map units_map
                         category_revenue) notes geography currency)
  ≡ₚ elements (dom revenue_map ∪ dom units_map ∪ dom inventory_data).
Proof.
  rewrite build_json_brands, <-list_fmap_compose.
  rewrite (list_fmap_ext _ brand) by done.
  rewrite compute_metrics_values, <-list_fmap_compose.
  rewrite (list_fmap_ext _ id); [by rewrite list_fmap_id|].
  intros i b _. apply brand_entry_brand.
Qed.

Lemma filter_nonempty_iff {A} (P : A → Prop) `{!∀ x, Decision (P x)}
    (l : list A) :
  filter P l ≠ [] ↔ ∃ x, x ∈ l ∧ P x.
Proof.
  split.
  - destruct (filter P l) as [|x l'] eqn:Hf; [done|]. intros _.
    assert (x ∈ filter P l) as Hx by (rewrite Hf; by left).
    apply list_elem_of_filter in Hx. exists x. tauto.
  - intros (x & Hx & HP) Hnil.
    assert (x ∈ filter P l) as Hin by by apply list_elem_of_filter.
    rewrite Hnil in Hin. by apply elem_of_nil in Hin.
Qed.

Lemma inventory_of_dom a mapping (name : string) :
  name ∈ dom (inventory_of a mapping)
  ↔ ∃ x, x ∈ purchases a ∧ canonical mapping (purchase_vendor x) = name.
Proof.
  rewrite elem_of_dom. unfold run_inventory.
  rewrite fold_add_purchase_lookup, <-filter_nonempty_iff.
  fold (purchases_of mapping name (purchases a)).
  case_decide as Hnil.
  - split; [by intros [? ?] | done].
  - split; [done | by eexists].
Qed.

Lemma sales_revenue_dom a mapping (name : string) :
  name ∈ dom (revenue_map (sales_acc_of a mapping))
  ↔ ∃ x, x ∈ sales a ∧ canonical mapping (sale_brand x) = name.
Proof.
  rewrite elem_of_dom. unfold run_sales.
  rewrite fold_add_sale_revenue, <-filter_nonempty_iff.
  fold (sales_of mapping name (sales a)).
  case_decide as Hnil.
  - split; [by intros [? ?] | done].
  - split; [done | by eexists].
Qed.

Lemma sales_units_dom a mapping :
  dom (units_map (sales_acc_of a mapping))
  = dom (revenue_map (sales_acc_of a mapping)).
Proof.
  symmetry. apply fold_add_sale_inv. split; [done|]. simpl.
  by rewrite !dom_empty_L.
Qed.

(** X20: the brands of the document are the canonical names of the valid
    inventory rows and of the valid sales rows, each listed once. *)
Theorem main_brand_names a :
  can_write (arg_output a) = true →
  ∃ mapping doc n,
    load_vendor_mapping str_of_num fs (arg_vendor_map a) = Returned mapping
    ∧ main to_numeric str_of_num fs can_write today a = Returned (doc, n)
    ∧ NoDup (brand <$> brands doc)
    ∧ ∀ name,
        name ∈ brand <$> brands doc
        ↔ (∃ x, x ∈ source_purchases to_numeric fs (arg_inventory a)
                ∧ canonical mapping (purchase_vendor x) = name)
          ∨ (∃ x, x ∈ all_sales to_numeric fs (arg_sales a)
                  ∧ canonical mapping (sale_brand x) = name).
Proof.
  intros Hw. destruct (main_run a) as (mapping & Hmap & Hmain).
  rewrite Hw in Hmain. do 3 eexists.
  split; [exact Hmap|]. split; [exact Hmain|].
  unfold run_brand_data. split.
  - rewrite brand_names_of_values. apply NoDup_elements.
  - intros name. rewrite brand_names_of_values, elem_of_elements.
    rewrite !elem_of_union, sales_units_dom, sales_revenue_dom,
      inventory_of_dom.
    tauto.
Qed.






(** X23: when no source yields a valid row, because the files are
    missing or unreadable or lack the labels, the run still completes: it
    reports 0 brands and its document has no brand and totals of 0. *)
Theorem main_no_rows a :
  can_write (arg_output a) = true →
  source_purchases to_numeric fs (arg_inventory a) = [] →
  all_sales to_numeric fs (arg_sales a) = [] →
  ∃ doc,
    main to_numeric str_of_num fs can_write today a = Returned (doc, 0%nat)
    ∧ brands doc = [] ∧ kpi_total_revenue doc = 0 ∧ kpi_total_units doc = 0.
Proof.
  intros Hw Hpurchases Hsales.
  destruct (main_run a) as (mapping & _ & Hmain). rewrite Hw in Hmain.
  assert (run_brand_data to_numeric fs a mapping = ∅) as Hempty.
  { unfold run_brand_data, run_inventory, run_sales.
    rewrite Hpurchases, Hsales. cbn [fold_left revenue_map units_map].
    unfold compute_metrics.
    rewrite !dom_empty_L, !(left_id_L ∅ (∪)), elements_empty. done. }
  rewrite Hempty in Hmain. rewrite map_size_empty in Hmain.
  eexists. split; [exact Hmain|].
  unfold build_json. cbn [brands kpi_total_revenue kpi_total_units].
  rewrite map_to_list_empty. done.
Qed.

End Command.


(** The sample run lists one brand, under its canonical name. *)
Lemma main_brand_names_witness :
  ∃ mapping doc n,
    load_vendor_mapping print_none sample_files (Some "map.csv")
    = Returned mapping
    ∧ main read_decimal print_none sample_files (λ _, true) "2025-09-13"
        (Args "received.xlsx" ["q1.xlsx"; "q2.xlsx"] (Some "map.csv")
              "out.json" "" "NY" "USD")
      = Returned (doc, n)
    ∧ NoDup (brand <$> brands doc).
Proof.
  destruct (main_brand_names read_decimal print_none sample_files (λ _, true)
              "2025-09-13"
              (Args "received.xlsx" ["q1.xlsx"; "q2.xlsx"] (Some "map.csv")
                    "out.json" "" "NY" "USD"))
    as (mapping & doc & n & Hmap & Hmain & Hnodup & _); [reflexivity|].
  exists mapping, doc, n. split; [exact Hmap|].
  split; [exact Hmain | exact Hnodup].
Defined.



(** A run on a rejected file and a missing one. *)
Lemma main_no_rows_witness :
  ∃ doc,
    main read_decimal print_none sample_files (λ _, true) "2025-09-13"
      (Args "broken.xlsx" ["missing.xlsx"; "broken.xlsx"] None
            "out.json" "" "NY" "USD")
    = Returned (doc, 0%nat)
    ∧ brands doc = [] ∧ kpi_total_revenue doc = 0 ∧ kpi_total_units doc = 0.
Proof.
  apply (main_no_rows read_decimal print_none sample_files (λ _, true)
           "2025-09-13"
           (Args "broken.xlsx" ["missing.xlsx"; "broken.xlsx"] None
                 "out.json" "" "NY" "USD")); reflexivity.
Defined.
